(** * pythonping: the session executor, the response aggregator and the
      identifier list of [ping]

    A shallow embedding of [pythonping/executor.py] and of
    [pythonping/__init__.py], followed by the properties of the
    specification that concern them.

    Conventions of the embedding.
    - Python [int] is [Z].  Python [float] is left abstract behind the class
      [Number], with two instances: [Q] (exact arithmetic, the reading under
      which the specification calls two formulas "algebraically equivalent")
      and the kernel's binary64 [float] (what CPython computes with).  Every
      definition of the program is written once, over the class.
    - [bytes] is [list byte].
    - An exception, and a loop that is still waiting for its environment, are
      explicit results ([outcome]).
    - The network, the clock and the random generator are oracles: the list of
      the values their successive calls return.  [time.sleep] is a call whose
      refusal by the platform the environment decides; the time it takes
      shows in the readings of the clock that follow. *)

From Stdlib Require Import ZArith QArith Qminmax String List Bool Lia Lqa.
From Stdlib Require Import Strings.Byte PrimFloat Uint63.
From Stdlib Require Import Floats.SpecFloat Floats.FloatOps Floats.FloatAxioms.
Import ListNotations.

Local Open Scope Z_scope.

(** ** Numbers *)

(** The arithmetic the program performs on times and ratios.  [of_int] is
    the implicit conversion of an [int] operand; [num_div] is [/] at a
    divisor that is not zero (where the divisor can be zero the embedding
    tests for it and raises [ZeroDivisionError], as Python does). *)
Class Number (T : Type) : Type := {
  of_int  : Z -> T;
  num_add : T -> T -> T;
  num_sub : T -> T -> T;
  num_mul : T -> T -> T;
  num_div : T -> T -> T;
  num_lt  : T -> T -> bool;
  num_le  : T -> T -> bool
}.

Declare Scope py_scope.
Delimit Scope py_scope with py.
Infix "+" := num_add : py_scope.
Infix "-" := num_sub : py_scope.
Infix "*" := num_mul : py_scope.
Infix "/" := num_div : py_scope.
Notation "a <? b" := (num_lt a b) : py_scope.
Notation "a >? b" := (num_lt b a) : py_scope.
Notation "a >=? b" := (num_le b a) : py_scope.
Notation "a <=? b" := (num_le a b) : py_scope.

(** Exact arithmetic. *)
#[export] Instance Q_Number : Number Q := {
  of_int  := inject_Z;
  num_add := Qplus;
  num_sub := Qminus;
  num_mul := Qmult;
  num_div := Qdiv;
  num_lt a b := negb (Qle_bool b a);
  num_le  := Qle_bool
}.

(** Conversion of an [int] to binary64, exact below [2^53] in absolute
    value. *)
Definition float_of_int (z : Z) : float :=
  if z <? 0 then PrimFloat.opp (PrimFloat.of_uint63 (Uint63.of_Z (- z)))
  else PrimFloat.of_uint63 (Uint63.of_Z z).

(** IEEE 754 binary64, round to nearest even: CPython's [float]. *)
#[export] Instance float_Number : Number float := {
  of_int  := float_of_int;
  num_add := PrimFloat.add;
  num_sub := PrimFloat.sub;
  num_mul := PrimFloat.mul;
  num_div := PrimFloat.div;
  num_lt  := PrimFloat.ltb;
  num_le  := PrimFloat.leb
}.

(** ** Results of a call *)

Inductive exn : Type :=
| ZeroDivisionError
| ValueError
| TransportError   (* an OS-level failure of the socket *)
| FormatError      (* a received buffer that cannot be unpacked *)
| OverflowError.   (* a length time.sleep cannot wait for *)

(** [Pending]: the oracle has no further value while the code still asks
    for one (the call has not returned yet). *)
Inductive outcome (A : Type) : Type :=
| Returned (a : A)
| Raised (e : exn)
| Pending.

Arguments Returned {A} a.
Arguments Raised {A} e.
Arguments Pending {A}.

(** ** Bytes and list indexing *)

Definition bytes : Type := list byte.

Fixpoint bytes_eqb (a b : bytes) : bool :=
  match a, b with
  | [], [] => true
  | x :: a', y :: b' => Byte.eqb x y && bytes_eqb a' b'
  | _, _ => false
  end.

(** [l[i]] of Python: a negative index counts from the end; [None] stands
    for [IndexError]. *)
Definition py_getitem {A : Type} (l : list A) (i : Z) : option A :=
  let n := Z.of_nat (length l) in
  if (0 <=? i) && (i <? n) then nth_error l (Z.to_nat i)
  else if (- n <=? i) && (i <? 0) then nth_error l (Z.to_nat (n + i))
  else None.

(** ** icmp.ICMP, as far as the executor reads it *)

Module icmp.

(** Modelled from the spec: the module [icmp] is not part of the sources;
    this is the Packet of the data model, with the field names the
    executor uses ([id] for the identifier). *)
Record ICMP : Type := {
  message_type : Z;
  message_code : Z;
  id : Z;
  sequence_number : Z;
  payload : bytes
}.

(** Modelled from the spec: [icmp.Types.EchoRequest.type_id], Echo Request
    being type 8, code 0. *)
Definition EchoRequest_type_id : Z := 8.

End icmp.

(** ** class Message *)

Record Message : Type := {
  target : string;
  packet : icmp.ICMP;
  source : string
}.

(** ** class Response *)

Module Response.
Section WithNumber.
Context {T : Type}.

Record t : Type := Response {
  message : option Message;
  time_elapsed : T
}.

Definition unreachable_messages : list string := [
  "Network Unreachable";
  "Host Unreachable";
  "Protocol Unreachable";
  "Port Unreachable";
  "Fragmentation Required";
  "Source Route Failed";
  "Network Unknown";
  "Host Unknown";
  "Source Host Isolated";
  "Communication with Destination Network is Administratively Prohibited";
  "Communication with Destination Host is Administratively Prohibited";
  "Network Unreachable for ToS";
  "Host Unreachable for ToS";
  "Communication Administratively Prohibited";
  "Host Precedence Violation";
  "Precedence Cutoff in Effect"
]%string.

Definition error_message (self : t) : option string :=
  match message self with
  | None => Some "No response"%string
  | Some m =>
      if (icmp.message_type (packet m) =? 0)
         && (icmp.message_code (packet m) =? 0)
      then None
      else if icmp.message_type (packet m) =? 3 then
        match py_getitem unreachable_messages
                         (icmp.message_code (packet m)) with
        | Some s => Some s
        | None => Some "Unreachable"%string
        end
      else Some "Network Error"%string
  end.

Definition success (self : t) : bool :=
  match error_message self with
  | None => true
  | Some _ => false
  end.

End WithNumber.
Arguments t : clear implicits.
End Response.

(** ** class SuccessOn *)

Inductive SuccessOn : Type := One | Most | All.

(** ** class ResponseList *)

Module ResponseList.
Section WithNumber.
Context {T : Type} `{Number T}.
Local Open Scope py_scope.

Record t : Type := ResponseList {
  _responses : list (Response.t T);
  rtt_avg : T;
  rtt_min : T;
  rtt_max : T;
  packets_lost : T;
  start_time : option T;
  stop_time : option T
}.

Definition len (self : t) : Z := Z.of_nat (length (_responses self)).

Definition clear (self : t) : t :=
  {| _responses := [];
     rtt_avg := rtt_avg self;
     rtt_min := rtt_min self;
     rtt_max := rtt_max self;
     packets_lost := packets_lost self;
     start_time := start_time self;
     stop_time := stop_time self |}.

(** [self.start_time = v] and [self.stop_time = v], as run assigns them. *)
Definition set_start_time (self : t) (v : T) : t :=
  {| _responses := _responses self;
     rtt_avg := rtt_avg self;
     rtt_min := rtt_min self;
     rtt_max := rtt_max self;
     packets_lost := packets_lost self;
     start_time := Some v;
     stop_time := stop_time self |}.

Definition set_stop_time (self : t) (v : T) : t :=
  {| _responses := _responses self;
     rtt_avg := rtt_avg self;
     rtt_min := rtt_min self;
     rtt_max := rtt_max self;
     packets_lost := packets_lost self;
     start_time := start_time self;
     stop_time := Some v |}.

Definition append (self : t) (value : Response.t T) : t :=
  let responses := _responses self ++ [value] in
  let n := Z.of_nat (length responses) in
  let elapsed := Response.time_elapsed value in
  let avg :=
    if (n =? 1)%Z then elapsed
    else (rtt_avg self * of_int (n - 1) + elapsed) / of_int n in
  let max :=
    if (n =? 1)%Z then elapsed
    else if elapsed >? rtt_max self then elapsed else rtt_max self in
  let min :=
    if (n =? 1)%Z then elapsed
    else if elapsed <? rtt_min self then elapsed else rtt_min self in
  let lost :=
    packets_lost self
    + (if Response.success value then of_int 0
       else of_int 1 - packets_lost self) / of_int n in
  {| _responses := responses;
     rtt_avg := avg;
     rtt_min := min;
     rtt_max := max;
     packets_lost := lost;
     start_time := start_time self;
     stop_time := stop_time self |}.

(** [ResponseList(initial_set)]. *)
Definition init (initial_set : list (Response.t T)) : t :=
  fold_left append initial_set
    {| _responses := [];
       rtt_avg := of_int 0;
       rtt_min := of_int 0;
       rtt_max := of_int 0;
       packets_lost := of_int 0;
       start_time := None;
       stop_time := None |}.

(** [list.count(True)]. *)
Definition count_true (l : list bool) : Z :=
  Z.of_nat (length (filter (fun b => b) l)).

Definition success (self : t) (option : SuccessOn) : outcome bool :=
  let success_list := map Response.success (_responses self) in
  match option with
  | One => Returned (existsb (fun b => b) success_list)
  | Most =>
      if (Z.of_nat (length success_list) =? 0)%Z
      then Raised ZeroDivisionError
      else Returned
             ((of_int (count_true success_list)
               / of_int (Z.of_nat (length success_list)))
              >? (of_int 1 / of_int 2))
  | All => Returned (negb (existsb negb success_list))
  end.

Definition packet_loss (self : t) : T := packets_lost self.

End WithNumber.
Arguments t : clear implicits.
End ResponseList.

(** ** class Communicator *)

Module Communicator.
Section WithNumber.
Context {T : Type} `{Number T}.
Local Open Scope py_scope.

(** [icmp.ICMP.unpack], which the sources do not contain: a parameter.
    [None] stands for a buffer on which it raises. *)
Variable unpack : bytes -> option icmp.ICMP.

(** What one call of [self.socket.receive(time_left)] gives back: the triple
    [(raw_packet, source_socket, time_left)], [source_socket] being kept as
    its first component, or an OS-level failure. *)
Inductive received : Type :=
| Packet (raw_packet : bytes) (source_socket : string) (time_left : T)
| ReceiveFault.

Record t : Type := Communicator {
  provider : list bytes;
  timeout : T;
  responses : ResponseList.t T;
  seed_id : Z;
  interval : T;
  (** [None] is [float("inf")], the default: no finite time reaches it. *)
  overall_timeout : option T
}.

(** A request handed to the socket: identifier, sequence number, payload. *)
Definition request : Type := (Z * Z * bytes)%type.

(** The socket either takes the packet or fails; the payload comes back as
    the bytes that were sent. *)
Definition send_ping (send_fault : bool) (packet_id sequence_number : Z)
           (payload : bytes) : outcome bytes :=
  if send_fault then Raised TransportError else Returned payload.

(** The test listen_for applies to an unpacked packet. *)
Definition reply_matches (packet_id : Z) (payload_pattern : option bytes)
           (response : icmp.ICMP) : bool :=
  if (icmp.id response =? packet_id)%Z
     && negb (icmp.message_type response =? icmp.EchoRequest_type_id)%Z
  then
    match payload_pattern with
    | None => true
    | Some pattern => bytes_eqb pattern (icmp.payload response)
    end
  else false.

(** The loop of listen_for; [socket] lists what the coming calls of
    [receive] return, and the calls not made are handed back. *)
Fixpoint listen_loop (packet_id : Z) (timeout : T)
         (payload_pattern : option bytes) (time_left : T)
         (socket : list received)
  : outcome (Response.t T) * list received :=
  if time_left >? of_int 0 then
    match socket with
    | [] => (Pending, [])
    | ReceiveFault :: rest => (Raised TransportError, rest)
    | Packet raw_packet source_socket time_left' :: rest =>
        match raw_packet with
        | [] => listen_loop packet_id timeout payload_pattern time_left' rest
        | _ :: _ =>
            match unpack raw_packet with
            | None => (Raised FormatError, rest)
            | Some response =>
                if reply_matches packet_id payload_pattern response then
                  (Returned
                     (Response.Response
                        (Some {| target := ""; packet := response;
                                 source := source_socket |})
                        (timeout - time_left')),
                   rest)
                else
                  listen_loop packet_id timeout payload_pattern time_left'
                              rest
            end
        end
    end
  else (Returned (Response.Response None timeout), socket).

Definition listen_for (socket : list received) (packet_id : Z) (timeout : T)
           (payload_pattern : option bytes)
  : outcome (Response.t T) * list received :=
  listen_loop packet_id timeout payload_pattern timeout socket.

Definition increase_seq (sequence_number : Z) : Z :=
  let sequence_number := (sequence_number + 1)%Z in
  if (sequence_number >? 0xFFFF)%Z then 1%Z else sequence_number.

(** What the environment does during one turn of the loop of run: whether
    the send fails, what the calls of [receive] return, the value of
    [time.time()] read after the response is appended, and whether the
    platform refuses the length of the sleep that follows. *)
Record attempt : Type := {
  send_fault : bool;
  socket : list received;
  now : T;
  sleep_fault : bool
}.

(** [time.sleep(secs)].  A length the platform cannot wait for is refused
    ([sleep_fault]: OverflowError for one beyond its 64-bit count of
    nanoseconds, an OS error on some platforms for less); a negative length,
    and in binary64 one that is not a number, is a ValueError.  Otherwise
    the call returns, [secs] or more later: what it does to the clock shows
    in the readings of [time.time()] that follow. *)
Definition sleep (sleep_fault : bool) (secs : T) : outcome unit :=
  if sleep_fault then Raised OverflowError
  else if secs >=? of_int 0 then Returned tt
  else Raised ValueError.

Definition deadline_reached (self : t) (overall_runtime : T) : bool :=
  match overall_timeout self with
  | None => false
  | Some limit => (overall_runtime + interval self) >=? limit
  end.

(** The [for] loop of run.  [sent] logs the requests handed to the
    socket.  A turn that does not break ends with [time.sleep(self.interval)],
    the last turn too. *)
Fixpoint run_loop (self : t) (match_payloads : bool) (start_time : T)
         (identifier seq : Z) (payloads : list bytes) (env : list attempt)
         (responses : ResponseList.t T) (sent : list request)
  : outcome (ResponseList.t T * list request) :=
  match payloads with
  | [] => Returned (responses, sent)
  | payload :: payloads' =>
      match env with
      | [] => Pending
      | a :: env' =>
          match send_ping (send_fault a) identifier seq payload with
          | Returned payload_bytes_sent =>
              let sent := sent ++ [(identifier, seq, payload)] in
              match fst (listen_for (socket a) identifier (timeout self)
                           (if match_payloads then Some payload_bytes_sent
                            else None)) with
              | Returned response =>
                  let responses := ResponseList.append responses response in
                  let stop_time := now a in
                  let responses :=
                    ResponseList.set_stop_time responses stop_time in
                  let overall_runtime := stop_time - start_time in
                  if deadline_reached self overall_runtime
                  then Returned (responses, sent)
                  else
                    match sleep (sleep_fault a) (interval self) with
                    | Returned _ =>
                        run_loop self match_payloads start_time identifier
                                 (increase_seq seq) payloads' env'
                                 responses sent
                    | Raised e => Raised e
                    | Pending => Pending
                    end
              | Raised e => Raised e
              | Pending => Pending
              end
          | Raised e => Raised e
          | Pending => Pending
          end
      end
  end.

(** [start_time] is the value of [time.time()] read on entry. *)
Definition run (self : t) (match_payloads : bool) (start_time : T)
           (env : list attempt)
  : outcome (ResponseList.t T * list request) :=
  let responses :=
    ResponseList.set_start_time (ResponseList.clear (responses self))
                                start_time in
  run_loop self match_payloads start_time (seed_id self) 1%Z
           (provider self) env responses [].

End WithNumber.
Arguments t : clear implicits.
Arguments received : clear implicits.
Arguments attempt : clear implicits.
End Communicator.

(** ** pythonping.ping and the list SEED_IDs *)

(** [random.randint(a, b)]: some integer of [a..b], picked here by an
    arbitrary integer of entropy. *)
Definition randint (a b : Z) (entropy : Z) : Z := a + entropy mod (b - a + 1).

(** [x in l]. *)
Definition contains (l : list Z) (x : Z) : bool := existsb (Z.eqb x) l.

(** [l.remove(x)]: the first occurrence goes; [None] stands for the
    [ValueError] raised when there is none. *)
Fixpoint list_remove (l : list Z) (x : Z) : option (list Z) :=
  match l with
  | [] => None
  | y :: l' =>
      if y =? x then Some l'
      else match list_remove l' x with
           | Some r => Some (y :: r)
           | None => None
           end
  end.

(** The [while True] loop of ping, run without interruption: one turn per
    integer of entropy.  The result is [seed_id] and the new [SEED_IDs];
    [None] when the entropy is used up with the loop still turning. *)
Fixpoint allocate (SEED_IDs : list Z) (entropy : list Z)
  : option (Z * list Z) :=
  match entropy with
  | [] => None
  | e :: entropy' =>
      let seed_id := randint 0x1 0xFFFF e in
      if negb (contains SEED_IDs seed_id)
      then Some (seed_id, SEED_IDs ++ [seed_id])
      else allocate SEED_IDs entropy'
  end.

Section Ping.
Context {T : Type} `{Number T}.
Variable unpack : bytes -> option icmp.ICMP.

(** The environment of one call of ping. *)
Record environment : Type := {
  entropy : list Z;          (* behind the calls of randint *)
  socket_fault : bool;       (* network.Socket(...) fails *)
  start : T;                 (* time.time() on entry of run *)
  attempts : list (Communicator.attempt T)
}.

(** [provider] is the list of payloads the payload provider built from
    [count], [size], [payload], [sweep_start] and [sweep_end] yields (the
    module payload_provider is not part of the sources).  The result is
    paired with [SEED_IDs] as the call leaves it. *)
Definition ping (SEED_IDs : list Z) (provider : list bytes) (timeout : T)
           (match_ : bool) (overall_timeout : option T) (env : environment)
  : outcome (ResponseList.t T) * list Z :=
  match allocate SEED_IDs (entropy env) with
  | None => (Pending, SEED_IDs)
  | Some (seed_id, SEED_IDs) =>
      if socket_fault env then (Raised TransportError, SEED_IDs)
      else
        let comm :=
          {| Communicator.provider := provider;
             Communicator.timeout := timeout;
             Communicator.responses := ResponseList.init [];
             Communicator.seed_id := seed_id;
             Communicator.interval := of_int 1;
             Communicator.overall_timeout := overall_timeout |} in
        match Communicator.run unpack comm match_ (start env)
                               (attempts env) with
        | Returned (responses, _) =>
            match list_remove SEED_IDs seed_id with
            | Some SEED_IDs' => (Returned responses, SEED_IDs')
            | None => (Raised ValueError, SEED_IDs)
            end
        | Raised e => (Raised e, SEED_IDs)
        | Pending => (Pending, SEED_IDs)
        end
  end.

End Ping.
Arguments environment : clear implicits.

(** ** Several threads calling ping *)

(** [SEED_IDs] is a module-level list shared by the threads of the process,
    and ping takes no lock.  A thread is at one of the following points of
    ping; between two of them another thread may run. *)
Module Threads.

Inductive point : Type :=
| AtDraw                    (* about to run seed_id = randint(0x1, 0xFFFF) *)
| AtTest (seed_id : Z)      (* about to test seed_id not in SEED_IDs *)
| AtAppend (seed_id : Z)    (* test passed, about to append *)
| InSession (seed_id : Z)   (* appended; in Communicator(...) or comm.run *)
| Finished                  (* SEED_IDs.remove(seed_id) done, ping returned *)
| Faulted.                  (* an exception left ping *)

Record world : Type := {
  SEED_IDs : list Z;
  at_ : nat -> point
}.

Definition move (w : world) (i : nat) (p : point) (ids : list Z) : world :=
  {| SEED_IDs := ids;
     at_ := fun j => if Nat.eqb j i then p else at_ w j |}.

(** One statement of one thread. *)
Inductive step : world -> world -> Prop :=
| step_draw w i e :
    at_ w i = AtDraw ->
    step w (move w i (AtTest (randint 0x1 0xFFFF e)) (SEED_IDs w))
| step_test_free w i seed_id :
    at_ w i = AtTest seed_id ->
    contains (SEED_IDs w) seed_id = false ->
    step w (move w i (AtAppend seed_id) (SEED_IDs w))
| step_test_taken w i seed_id :
    at_ w i = AtTest seed_id ->
    contains (SEED_IDs w) seed_id = true ->
    step w (move w i AtDraw (SEED_IDs w))
| step_append w i seed_id :
    at_ w i = AtAppend seed_id ->
    step w (move w i (InSession seed_id) (SEED_IDs w ++ [seed_id]))
| step_remove w i seed_id ids :
    at_ w i = InSession seed_id ->
    list_remove (SEED_IDs w) seed_id = Some ids ->
    step w (move w i Finished ids)
| step_fault w i seed_id :
    at_ w i = InSession seed_id ->
    step w (move w i Faulted (SEED_IDs w))
| step_again w i :
    at_ w i = Finished \/ at_ w i = Faulted ->
    step w (move w i AtDraw (SEED_IDs w)).

(** The same threads when the loop of ping runs without another thread in
    between (as under a lock around it): the loop is the one step
    [allocate]. *)
Inductive serial_step : world -> world -> Prop :=
| serial_allocate w i entropy seed_id ids :
    at_ w i = AtDraw ->
    allocate (SEED_IDs w) entropy = Some (seed_id, ids) ->
    serial_step w (move w i (InSession seed_id) ids)
| serial_remove w i seed_id ids :
    at_ w i = InSession seed_id ->
    list_remove (SEED_IDs w) seed_id = Some ids ->
    serial_step w (move w i Finished ids)
| serial_fault w i seed_id :
    at_ w i = InSession seed_id ->
    serial_step w (move w i Faulted (SEED_IDs w))
| serial_again w i :
    at_ w i = Finished \/ at_ w i = Faulted ->
    serial_step w (move w i AtDraw (SEED_IDs w)).

Inductive reachable (R : world -> world -> Prop) (w0 : world)
  : world -> Prop :=
| reach_refl : reachable R w0 w0
| reach_step w1 w2 : reachable R w0 w1 -> R w1 w2 -> reachable R w0 w2.

(** The process when pythonping is imported: [SEED_IDs = []], every thread
    about to call ping. *)
Definition initial : world := {| SEED_IDs := []; at_ := fun _ => AtDraw |}.

(** What holds of every world reached when the loop of ping is one step:
    SEED_IDs has no duplicate, and the sessions hold distinct numbers of
    1..65535 that are in it. *)
Definition sound (w : world) : Prop :=
  NoDup (SEED_IDs w)
  /\ (forall i seed_id,
         at_ w i = InSession seed_id ->
         In seed_id (SEED_IDs w) /\ 1 <= seed_id <= 65535)
  /\ (forall i j seed_id,
         at_ w i = InSession seed_id -> at_ w j = InSession seed_id ->
         i = j).

(** The number a thread has drawn, from the draw to the end of its
    session. *)
Definition drawn (p : point) : option Z :=
  match p with
  | AtTest seed_id | AtAppend seed_id | InSession seed_id => Some seed_id
  | AtDraw | Finished | Faulted => None
  end.

(** Two worlds with the same list and every thread at the same point. *)
Definition same (w w' : world) : Prop :=
  SEED_IDs w = SEED_IDs w' /\ forall i, at_ w i = at_ w' i.

(** Threads [i] and [j] are both in a session, with the same identifier. *)
Definition clash (w : world) (i j : nat) : Prop :=
  i <> j /\ exists seed_id,
    at_ w i = InSession seed_id /\ at_ w j = InSession seed_id.

End Threads.

(** ** Notions the properties are stated with *)

(** An Echo Reply (type 0, code 0) from 10.0.0.1. *)
Definition echo_reply : Message :=
  {| target := "";
     packet := {| icmp.message_type := 0; icmp.message_code := 0;
                  icmp.id := 7; icmp.sequence_number := 1;
                  icmp.payload := [] |};
     source := "10.0.0.1" |}.

(** A successful attempt and a timed-out one. *)
Definition replied {T : Type} (elapsed : T) : Response.t T :=
  Response.Response (Some echo_reply) elapsed.

Definition timed_out {T : Type} (elapsed : T) : Response.t T :=
  Response.Response None elapsed.

(** The number of unsuccessful results of a series. *)
Definition failures {T : Type} (l : list (Response.t T)) : Z :=
  Z.of_nat (length (filter (fun r => negb (Response.success r)) l)).

(** The number of unsuccessful results divided by the number of results. *)
Definition loss_ratio (l : list (Response.t Q)) : Q :=
  inject_Z (failures l) / inject_Z (Z.of_nat (length l)).

Definition elapsed_times {T : Type} (l : list (Response.t T)) : list T :=
  map Response.time_elapsed l.

Definition Qsum (l : list Q) : Q := fold_right Qplus 0%Q l.

(** The arithmetic mean. *)
Definition Qmean (l : list Q) : Q := Qsum l / inject_Z (Z.of_nat (length l)).

(** [m] is the least, respectively the greatest, element of [l]. *)
Definition is_minimum (m : Q) (l : list Q) : Prop :=
  In m l /\ forall x, In x l -> (m <= x)%Q.

Definition is_maximum (m : Q) (l : list Q) : Prop :=
  In m l /\ forall x, In x l -> (x <= m)%Q.

(** [m] is one of [l] and no element of [l] is less, respectively greater,
    than it, by the [<] of the arithmetic: the minimum and the maximum of
    numbers that [<] orders (in binary64, all but NaN). *)
Definition none_below {T : Type} `{Number T} (m : T) (l : list T) : Prop :=
  In m l /\ forall x, In x l -> num_lt x m = false.

Definition none_above {T : Type} `{Number T} (m : T) (l : list T) : Prop :=
  In m l /\ forall x, In x l -> num_lt m x = false.

(** The rational a binary64 number is, sign times mantissa times a power of
    two; 0 for the infinities and NaN. *)
Definition exact_value (x : float) : Q :=
  match Prim2SF x with
  | S754_finite s m e =>
      (if s then -1 else 1) * inject_Z (Zpos m) * Qpower 2 e
  | _ => 0
  end.

(** 0.1 in binary64, the double nearest to one tenth. *)
Definition tenth : float := 0x1.999999999999ap-4%float.

(** 10, 20 and 30 milliseconds in binary64, in seconds. *)
Definition ms10 : float := 0x1.47ae147ae147bp-7%float.
Definition ms20 : float := 0x1.47ae147ae147bp-6%float.
Definition ms30 : float := 0x1.eb851eb851eb8p-6%float.

Definition Z_of_byte (b : byte) : Z := Z.of_N (Byte.to_N b).

(** Modelled from the spec: the decoder of the Packet Codec, standing in for
    [icmp.ICMP.unpack] where a concrete one is needed: type, code, checksum,
    identifier and sequence number in eight bytes, big-endian, then the
    payload; a shorter buffer is a format error. *)
Definition decode (raw : bytes) : option icmp.ICMP :=
  match raw with
  | ty :: code :: _ :: _ :: id1 :: id0 :: seq1 :: seq0 :: payload =>
      Some {| icmp.message_type := Z_of_byte ty;
              icmp.message_code := Z_of_byte code;
              icmp.id := Z_of_byte id1 * 256 + Z_of_byte id0;
              icmp.sequence_number := Z_of_byte seq1 * 256 + Z_of_byte seq0;
              icmp.payload := payload |}
  | _ => None
  end.

Section Listening.
Context {T : Type} `{Number T}.
Variable unpack : bytes -> option icmp.ICMP.

(** A call of [receive] that returned normally. *)
Definition delivery : Type := (bytes * string * T)%type.

Definition as_received (d : delivery) : Communicator.received T :=
  let '(raw_packet, source_socket, time_left) := d in
  Communicator.Packet raw_packet source_socket time_left.

Definition budget_left (d : delivery) : T := snd d.

(** The delivery is not the reply: nothing arrived, or what arrived unpacks
    to a packet that fails the test. *)
Definition passes_by (packet_id : Z) (payload_pattern : option bytes)
           (d : delivery) : bool :=
  match fst (fst d) with
  | [] => true
  | raw_packet =>
      match unpack raw_packet with
      | Some response =>
          negb (Communicator.reply_matches packet_id payload_pattern
                                           response)
      | None => false
      end
  end.

(** The budget is not used up: [time_left > 0]. *)
Definition remains (time_left : T) : bool := (time_left >? of_int 0)%py.

End Listening.


(** Sample traffic for identifier 7: an Echo Reply carrying the byte "a", the
    same from identifier 9, and the Echo Request itself heard back. *)
Definition reply_bytes : bytes :=
  [x00; x00; x00; x00; x00; x07; x00; x01; x61].

Definition stray_bytes : bytes :=
  [x00; x00; x00; x00; x00; x09; x00; x01; x61].

Definition request_bytes : bytes :=
  [x08; x00; x00; x00; x00; x07; x00; x01; x61].

(** An attempt answered after an eighth of a second, of a budget of 2 s,
    with the clock read at [now]. *)
Definition prompt_reply {T : Type} `{Number T} (now : T)
  : Communicator.attempt T :=
  {| Communicator.send_fault := false;
     Communicator.socket :=
       [Communicator.Packet reply_bytes "10.0.0.1"
          (of_int 15 / of_int 8)%py];
     Communicator.now := now;
     Communicator.sleep_fault := false |}.

(** A session of ten payloads, 2 s per packet, one second between attempts
    and 2.5 s overall, and an environment that answers each attempt after an
    eighth of a second: the clock reads 0.125, 1.25, 2.375, ... after the
    attempts, the session having started at 0. *)
Definition ten_pings {T : Type} `{Number T} : Communicator.t T :=
  {| Communicator.provider := repeat [x61] 10;
     Communicator.timeout := of_int 2;
     Communicator.responses := ResponseList.init [];
     Communicator.seed_id := 7;
     Communicator.interval := of_int 1;
     Communicator.overall_timeout := Some (of_int 5 / of_int 2)%py |}.

Definition prompt_replies {T : Type} `{Number T}
  : list (Communicator.attempt T) :=
  map (fun k => prompt_reply (of_int (9 * k + 1) / of_int 8)%py)
      [0; 1; 2; 3; 4; 5; 6; 7; 8; 9].

(** A call of ping with one payload whose randint draws 7 (from the entropy
    6), and whose socket takes the request and delivers the reply. *)
Definition calm : environment Q :=
  {| entropy := [6];
     socket_fault := false;
     start := 0%Q;
     attempts := [prompt_reply (1 # 8)%Q] |}.

(** The same call when the socket refuses the request. *)
Definition send_refused : environment Q :=
  {| entropy := [6];
     socket_fault := false;
     start := 0%Q;
     attempts := [{| Communicator.send_fault := true;
                     Communicator.socket := [];
                     Communicator.now := 0%Q;
                     Communicator.sleep_fault := false |}] |}.

(** The same call when the socket cannot be created. *)
Definition socket_refused : environment Q :=
  {| entropy := [6];
     socket_fault := true;
     start := 0%Q;
     attempts := [] |}.

(** Two threads that draw 7 and both test SEED_IDs before either appends. *)
Definition racing : Threads.world :=
  let w1 := Threads.move Threads.initial 0 (Threads.AtTest 7) [] in
  let w2 := Threads.move w1 1 (Threads.AtTest 7) [] in
  let w3 := Threads.move w2 0 (Threads.AtAppend 7) [] in
  let w4 := Threads.move w3 1 (Threads.AtAppend 7) [] in
  let w5 := Threads.move w4 0 (Threads.InSession 7) [7] in
  Threads.move w5 1 (Threads.InSession 7) [7; 7].

(** One thread in a session with identifier 7, the loop having run as one
    step. *)
Definition one_session : Threads.world :=
  Threads.move Threads.initial 0 (Threads.InSession 7) [7].

(** Two threads in a session each, the loop having run as one step for
    both: the second drew 7, found it in SEED_IDs, and drew 8. *)
Definition two_sessions : Threads.world :=
  Threads.move one_session 1 (Threads.InSession 8) [7; 8].

(** ** More of the program, and the notions its properties are stated with *)

Section MoreOfTheProgram.
Context {T : Type} `{Number T}.
Variable unpack : bytes -> option icmp.ICMP.

(** The property [ResponseList.runtime], [self.stop_time - self.start_time].
    [None] stands for the AttributeError of a series on which run has not
    assigned both: __init__ sets [start_ping] and [stop_ping], not these. *)
Definition runtime (self : ResponseList.t T) : option T :=
  match ResponseList.stop_time self, ResponseList.start_time self with
  | Some stop_time, Some start_time => Some (stop_time - start_time)%py
  | _, _ => None
  end.

(** [Communicator.__init__]: the socket is created first, and may fail; a
    missing [seed_id] becomes [os.getpid() & 0xFFFF]. *)
Definition Communicator_init (socket_fault : bool)
           (payload_provider : list bytes) (timeout : T)
           (seed_id : option Z) (getpid : Z) (interval : T)
           (overall_timeout : option T) : outcome (Communicator.t T) :=
  if socket_fault then Raised TransportError
  else
    Returned
      {| Communicator.provider := payload_provider;
         Communicator.timeout := timeout;
         Communicator.responses := ResponseList.init [];
         Communicator.seed_id :=
           match seed_id with
           | Some seed_id => seed_id
           | None => Z.land getpid 0xFFFF
           end;
         Communicator.interval := interval;
         Communicator.overall_timeout := overall_timeout |}.

(** The number of successful results of a series. *)
Definition successes (l : list (Response.t T)) : Z :=
  Z.of_nat (length (filter Response.success l)).

(** Two series with the same results and the same four statistics. *)
Definition same_statistics (s t : ResponseList.t T) : Prop :=
  ResponseList._responses s = ResponseList._responses t
  /\ ResponseList.rtt_avg s = ResponseList.rtt_avg t
  /\ ResponseList.rtt_min s = ResponseList.rtt_min t
  /\ ResponseList.rtt_max s = ResponseList.rtt_max t
  /\ ResponseList.packets_lost s = ResponseList.packets_lost t.

(** Two series with the same results and the same three round-trip times. *)
Definition same_times (s t : ResponseList.t T) : Prop :=
  ResponseList._responses s = ResponseList._responses t
  /\ ResponseList.rtt_avg s = ResponseList.rtt_avg t
  /\ ResponseList.rtt_min s = ResponseList.rtt_min t
  /\ ResponseList.rtt_max s = ResponseList.rtt_max t.

(** What one turn of the loop of run gets from its environment: the response
    of listen_for, or the exception of the send or of listen_for. *)
Definition attempt_result (self : Communicator.t T) (match_payloads : bool)
           (identifier : Z) (payload : bytes) (a : Communicator.attempt T)
  : outcome (Response.t T) :=
  match Communicator.send_ping (Communicator.send_fault a) identifier 0
                               payload with
  | Returned payload_bytes_sent =>
      fst (Communicator.listen_for
             unpack (Communicator.socket a) identifier
             (Communicator.timeout self)
             (if match_payloads then Some payload_bytes_sent else None))
  | Raised e => Raised e
  | Pending => Pending
  end.

Definition completes (self : Communicator.t T) (match_payloads : bool)
           (identifier : Z) (turn : bytes * Communicator.attempt T) : bool :=
  match attempt_result self match_payloads identifier (fst turn) (snd turn)
  with
  | Returned _ => true
  | _ => false
  end.

(** The sleep that follows the turn returns. *)
Definition rests (self : Communicator.t T) (a : Communicator.attempt T)
  : bool :=
  match Communicator.sleep (Communicator.sleep_fault a)
                           (Communicator.interval self) with
  | Returned _ => true
  | _ => false
  end.

(** The turn gets its response, the overall timeout is not reached after it
    and the sleep returns: the loop goes on to the next payload. *)
Definition proceeds (self : Communicator.t T) (match_payloads : bool)
           (start_time : T) (identifier : Z)
           (turn : bytes * Communicator.attempt T) : bool :=
  match attempt_result self match_payloads identifier (fst turn) (snd turn)
  with
  | Returned _ =>
      negb (Communicator.deadline_reached
              self (Communicator.now (snd turn) - start_time)%py)
      && rests self (snd turn)
  | _ => false
  end.

(** The requests of a session that starts at [seq] and sends [payloads]. *)
Fixpoint requests_from (identifier seq : Z) (payloads : list bytes)
  : list Communicator.request :=
  match payloads with
  | [] => []
  | payload :: payloads' =>
      (identifier, seq, payload)
        :: requests_from identifier (Communicator.increase_seq seq) payloads'
  end.

(** The response is one listen_for may give to the request that carried
    [payload]: a timeout with the full budget as elapsed time, or a message
    from the socket with the identifier of the request, a type other than
    Echo Request and, if payloads are matched, the payload sent. *)
Definition answers (identifier : Z) (timeout : T) (match_payloads : bool)
           (r : Response.t T) (payload : bytes) : Prop :=
  match Response.message r with
  | None => Response.time_elapsed r = timeout
  | Some m =>
      target m = ""%string
      /\ icmp.id (packet m) = identifier
      /\ icmp.message_type (packet m) <> icmp.EchoRequest_type_id
      /\ (match_payloads = true -> icmp.payload (packet m) = payload)
  end.

End MoreOfTheProgram.

(** An attempt that gets no reply: the one call of receive uses the budget
    up and delivers nothing. *)
Definition unanswered {T : Type} `{Number T} (now : T)
  : Communicator.attempt T :=
  {| Communicator.send_fault := false;
     Communicator.socket := [Communicator.Packet [] "" (of_int 0)];
     Communicator.now := now;
     Communicator.sleep_fault := false |}.

(** A session of three payloads with no overall timeout, as
    [Communicator.__init__] builds it, and an environment in which the
    second attempt gets no reply. *)
Definition three_pings : Communicator.t Q :=
  {| Communicator.provider := [[x61]; [x62]; [x63]];
     Communicator.timeout := 2%Q;
     Communicator.responses := ResponseList.init [];
     Communicator.seed_id := 7;
     Communicator.interval := 1%Q;
     Communicator.overall_timeout := None |}.

Definition one_loss : list (Communicator.attempt Q) :=
  [prompt_reply (1 # 8)%Q; unanswered (25 # 8)%Q; prompt_reply (34 # 8)%Q].

(** A session of one payload whose interval is minus one second. *)
Definition hasty_ping : Communicator.t Q :=
  {| Communicator.provider := [[x61]];
     Communicator.timeout := 2%Q;
     Communicator.responses := ResponseList.init [];
     Communicator.seed_id := 7;
     Communicator.interval := (-1)%Q;
     Communicator.overall_timeout := None |}.

(** Every number of 1..65535. *)
Definition all_identifiers : list Z :=
  map Z.of_nat (seq 1 (Z.to_nat 65535)).

(** A Destination Unreachable (type 3) message with the given code. *)
Definition unreachable (code : Z) : Message :=
  {| target := "";
     packet := {| icmp.message_type := 3; icmp.message_code := code;
                  icmp.id := 7; icmp.sequence_number := 1;
                  icmp.payload := [] |};
     source := "10.0.0.254" |}.

(** * Properties *)

(** ** Sequence numbers *)

(** C8. For a sequence number n of 1..65535, increase_seq gives n + 1 below
    65535 and 1 at 65535, so never 0 and again a number of 1..65535. *)
Theorem increase_seq_wraps_to_one (n : Z) :
  1 <= n <= 65535 ->
  (n < 65535 -> Communicator.increase_seq n = n + 1)
  /\ (n = 65535 -> Communicator.increase_seq n = 1)
  /\ 1 <= Communicator.increase_seq n <= 65535.
Proof.
  intros Hn. unfold Communicator.increase_seq.
  destruct (n + 1 >? 65535) eqn:E.
  - apply Z.gtb_lt in E. repeat split; intros; lia.
  - assert (n + 1 <= 65535) by (rewrite Z.gtb_ltb in E; apply Z.ltb_ge in E; lia).
    repeat split; intros; lia.
Qed.

Lemma increase_seq_wraps_to_one_witness :
  1 <= 65535 <= 65535
  /\ ((65535 < 65535 -> Communicator.increase_seq 65535 = 65535 + 1)
      /\ (65535 = 65535 -> Communicator.increase_seq 65535 = 1)
      /\ 1 <= Communicator.increase_seq 65535 <= 65535).
Proof.
  split; [lia | apply (increase_seq_wraps_to_one 65535); lia].
Defined.

(** ** The loss fraction *)

(** C1. After a failed attempt followed by a successful one, packets_lost is
    1 (in exact arithmetic and in binary64 alike), whereas one result out of
    two is unsuccessful: the update leaves the fraction unchanged on a
    success instead of lowering it. *)
Theorem packets_lost_ignores_later_success :
  let l := [timed_out 1%Q; replied 1%Q] in
  (ResponseList.packets_lost (ResponseList.init l) == 1)%Q
  /\ (loss_ratio l == 1 # 2)%Q
  /\ ~ (ResponseList.packets_lost (ResponseList.init l) == loss_ratio l)%Q
  /\ ResponseList.packets_lost
       (ResponseList.init [timed_out 1%float; replied 1%float]) = 1%float.
Proof.
  cbv zeta. split; [| split; [| split]].
  - vm_compute. reflexivity.
  - vm_compute. reflexivity.
  - vm_compute. discriminate.
  - vm_compute. reflexivity.
Qed.

(** Two successes followed by a failure, the example of the specification:
    here the update does give one third. *)
Example packets_lost_when_failures_come_last :
  (ResponseList.packets_lost
     (ResponseList.init [replied (10 # 1000); replied (20 # 1000);
                         timed_out (30 # 1000)]%Q)
   == 1 # 3)%Q.
Proof. vm_compute. reflexivity. Qed.

(** ** success on an empty series *)

(** C2, as the code has it. On a series without results success(One) is
    false and success(All) is true, whatever the arithmetic. *)
Theorem success_on_empty_series (T : Type) (N : Number T) :
  ResponseList.success (ResponseList.init ([] : list (Response.t T))) One
  = Returned false
  /\ ResponseList.success (ResponseList.init ([] : list (Response.t T))) All
     = Returned true.
Proof. split; reflexivity. Qed.

(** C2 does not hold as the specification states it. On the empty series
    success(All) is true, and success(Most) divides by the length 0 and
    raises. *)
Lemma success_on_empty_series_not_all_false :
  ResponseList.success (ResponseList.init ([] : list (Response.t Q))) All
  = Returned true
  /\ ResponseList.success (ResponseList.init ([] : list (Response.t Q))) Most
     = Raised ZeroDivisionError.
Proof. split; reflexivity. Qed.

(** ** Round-trip statistics, in exact arithmetic *)

(** The series after the results [l] were appended to [self]; it is
    [ResponseList.init l] from the fresh series, and the series of run from
    the cleared one. *)
Lemma fold_append_snoc (T : Type) (N : Number T) (self : ResponseList.t T)
      (l : list (Response.t T)) (value : Response.t T) :
  fold_left ResponseList.append (l ++ [value]) self
  = ResponseList.append (fold_left ResponseList.append l self) value.
Proof. rewrite fold_left_app. reflexivity. Qed.

Lemma fold_append_responses (T : Type) (N : Number T)
      (self : ResponseList.t T) (l : list (Response.t T)) :
  ResponseList._responses (fold_left ResponseList.append l self)
  = ResponseList._responses self ++ l.
Proof.
  induction l as [| value l IH] using rev_ind.
  - cbn [fold_left]. now rewrite app_nil_r.
  - rewrite fold_append_snoc.
    cbn [ResponseList.append ResponseList._responses].
    now rewrite IH, app_assoc.
Qed.

Lemma length_snoc_Z (A : Type) (l : list A) (x : A) :
  Z.of_nat (length (l ++ [x])) = Z.of_nat (length l) + 1.
Proof. rewrite length_app. cbn [length]. lia. Qed.

Lemma length_pos_Q (A : Type) (l : list A) :
  l <> [] -> (0 < inject_Z (Z.of_nat (length l)))%Q.
Proof.
  intros Hl. change 0%Q with (inject_Z 0). rewrite <- Zlt_Qlt.
  destruct l; [congruence | cbn [length]; lia].
Qed.

Lemma Qsum_snoc (l : list Q) (x : Q) : (Qsum (l ++ [x]) == Qsum l + x)%Q.
Proof.
  unfold Qsum. induction l as [| y l IH]; simpl.
  - ring.
  - rewrite IH. ring.
Qed.

(** The first append sets the three times to the elapsed time of the
    result, whatever the arithmetic. *)
Lemma append_to_empty (T : Type) (N : Number T) (self : ResponseList.t T)
      (value : Response.t T) :
  ResponseList._responses self = [] ->
  ResponseList.rtt_avg (ResponseList.append self value)
  = Response.time_elapsed value
  /\ ResponseList.rtt_min (ResponseList.append self value)
     = Response.time_elapsed value
  /\ ResponseList.rtt_max (ResponseList.append self value)
     = Response.time_elapsed value.
Proof.
  intros Hself.
  cbn [ResponseList.append ResponseList.rtt_avg ResponseList.rtt_min
         ResponseList.rtt_max].
  rewrite Hself. repeat split.
Qed.

Section ExactStatistics.
Variable self : ResponseList.t Q.
Hypothesis self_empty : ResponseList._responses self = [].

Let after (l : list (Response.t Q)) : ResponseList.t Q :=
  fold_left ResponseList.append l self.

(** The three branches of append once a result is already there. *)
Lemma append_avg (l : list (Response.t Q)) (value : Response.t Q) :
  l <> [] ->
  (ResponseList.rtt_avg (after (l ++ [value]))
   == (ResponseList.rtt_avg (after l) * inject_Z (Z.of_nat (length l))
       + Response.time_elapsed value)
      / inject_Z (Z.of_nat (length l) + 1))%Q.
Proof.
  intros Hl. unfold after. rewrite fold_append_snoc.
  cbn [ResponseList.append ResponseList.rtt_avg].
  rewrite fold_append_responses, self_empty, app_nil_l, length_snoc_Z.
  destruct (Z.eqb_spec (Z.of_nat (length l) + 1) 1) as [E | E].
  - destruct l; [congruence | cbn [length] in E; lia].
  - cbn [num_add num_mul num_div of_int Q_Number].
    replace (Z.of_nat (length l) + 1 - 1) with (Z.of_nat (length l)) by lia.
    reflexivity.
Qed.

Lemma append_min (l : list (Response.t Q)) (value : Response.t Q) :
  l <> [] ->
  ResponseList.rtt_min (after (l ++ [value]))
  = if Qle_bool (ResponseList.rtt_min (after l)) (Response.time_elapsed value)
    then ResponseList.rtt_min (after l)
    else Response.time_elapsed value.
Proof.
  intros Hl. unfold after. rewrite fold_append_snoc.
  cbn [ResponseList.append ResponseList.rtt_min].
  rewrite fold_append_responses, self_empty, app_nil_l, length_snoc_Z.
  destruct (Z.eqb_spec (Z.of_nat (length l) + 1) 1) as [E | E].
  - destruct l; [congruence | cbn [length] in E; lia].
  - cbn [num_lt Q_Number]. now destruct (Qle_bool _ _).
Qed.

Lemma append_max (l : list (Response.t Q)) (value : Response.t Q) :
  l <> [] ->
  ResponseList.rtt_max (after (l ++ [value]))
  = if Qle_bool (Response.time_elapsed value) (ResponseList.rtt_max (after l))
    then ResponseList.rtt_max (after l)
    else Response.time_elapsed value.
Proof.
  intros Hl. unfold after. rewrite fold_append_snoc.
  cbn [ResponseList.append ResponseList.rtt_max].
  rewrite fold_append_responses, self_empty, app_nil_l, length_snoc_Z.
  destruct (Z.eqb_spec (Z.of_nat (length l) + 1) 1) as [E | E].
  - destruct l; [congruence | cbn [length] in E; lia].
  - cbn [num_lt Q_Number]. now destruct (Qle_bool _ _).
Qed.

Lemma append_first (value : Response.t Q) :
  ResponseList.rtt_avg (after [value]) = Response.time_elapsed value
  /\ ResponseList.rtt_min (after [value]) = Response.time_elapsed value
  /\ ResponseList.rtt_max (after [value]) = Response.time_elapsed value.
Proof. exact (append_to_empty Q _ self value self_empty). Qed.

Lemma statistics_of_series (l : list (Response.t Q)) :
  l <> [] ->
  (ResponseList.rtt_avg (after l) == Qmean (elapsed_times l))%Q
  /\ is_minimum (ResponseList.rtt_min (after l)) (elapsed_times l)
  /\ is_maximum (ResponseList.rtt_max (after l)) (elapsed_times l).
Proof.
  induction l as [| value l IH] using rev_ind; [congruence |]. intros _.
  destruct l as [| r0 l0].
  - cbn [app]. destruct (append_first value) as (-> & -> & ->).
    unfold Qmean, Qsum, is_minimum, is_maximum. cbn.
    repeat split; try (left; reflexivity).
    + field.
    + intros x [<- | []]. apply Qle_refl.
    + intros x [<- | []]. apply Qle_refl.
  - set (l := r0 :: l0) in *.
    assert (Hl : l <> []) by (subst l; discriminate).
    destruct (IH Hl) as (Havg & [Hmin_in Hmin_le] & [Hmax_in Hmax_le]).
    pose proof (length_pos_Q _ l Hl) as Hpos.
    unfold elapsed_times in *. rewrite map_app. cbn [map].
    split; [| split].
    + rewrite (append_avg l value Hl), Havg. unfold Qmean.
      rewrite Qsum_snoc, length_snoc_Z, length_map, inject_Z_plus.
      change (inject_Z 1) with 1%Q.
      field. split; lra.
    + rewrite (append_min l value Hl).
      destruct (Qle_bool _ _) eqn:E.
      * apply Qle_bool_iff in E. split.
        -- apply in_or_app. now left.
        -- intros x Hx. apply in_app_or in Hx.
           destruct Hx as [Hx | [<- | []]]; auto.
      * assert (Hlt : (Response.time_elapsed value
                       < ResponseList.rtt_min (after l))%Q).
        { apply Qnot_le_lt. intros C. apply Qle_bool_iff in C. congruence. }
        split.
        -- apply in_or_app. right. now left.
        -- intros x Hx. apply in_app_or in Hx.
           destruct Hx as [Hx | [<- | []]].
           ++ apply Qlt_le_weak. eapply Qlt_le_trans; [exact Hlt | auto].
           ++ apply Qle_refl.
    + rewrite (append_max l value Hl).
      destruct (Qle_bool _ _) eqn:E.
      * apply Qle_bool_iff in E. split.
        -- apply in_or_app. now left.
        -- intros x Hx. apply in_app_or in Hx.
           destruct Hx as [Hx | [<- | []]]; auto.
      * assert (Hlt : (ResponseList.rtt_max (after l)
                       < Response.time_elapsed value)%Q).
        { apply Qnot_le_lt. intros C. apply Qle_bool_iff in C. congruence. }
        split.
        -- apply in_or_app. right. now left.
        -- intros x Hx. apply in_app_or in Hx.
           destruct Hx as [Hx | [<- | []]].
           ++ apply Qlt_le_weak. eapply Qle_lt_trans; [| exact Hlt]. auto.
           ++ apply Qle_refl.
Qed.

End ExactStatistics.

Lemma Qsum_lower (a : Q) (l : list Q) :
  (forall x, In x l -> (a <= x)%Q) ->
  (a * inject_Z (Z.of_nat (length l)) <= Qsum l)%Q.
Proof.
  unfold Qsum. induction l as [| y l IH]; intros Hall.
  - cbn [length fold_right]. change (inject_Z (Z.of_nat 0)) with 0%Q. lra.
  - cbn [length fold_right].
    rewrite Nat2Z.inj_succ, <- Z.add_1_r, inject_Z_plus.
    change (inject_Z 1) with 1%Q.
    assert (a <= y)%Q by (apply Hall; now left).
    assert (a * inject_Z (Z.of_nat (length l)) <= fold_right Qplus 0 l)%Q
      by (apply IH; intros; apply Hall; now right).
    lra.
Qed.

Lemma Qsum_upper (a : Q) (l : list Q) :
  (forall x, In x l -> (x <= a)%Q) ->
  (Qsum l <= a * inject_Z (Z.of_nat (length l)))%Q.
Proof.
  unfold Qsum. induction l as [| y l IH]; intros Hall.
  - cbn [length fold_right]. change (inject_Z (Z.of_nat 0)) with 0%Q. lra.
  - cbn [length fold_right].
    rewrite Nat2Z.inj_succ, <- Z.add_1_r, inject_Z_plus.
    change (inject_Z 1) with 1%Q.
    assert (y <= a)%Q by (apply Hall; now left).
    assert (fold_right Qplus 0 l <= a * inject_Z (Z.of_nat (length l)))%Q
      by (apply IH; intros; apply Hall; now right).
    lra.
Qed.

Lemma Qmean_between (lo hi : Q) (l : list Q) :
  l <> [] ->
  (forall x, In x l -> (lo <= x)%Q) ->
  (forall x, In x l -> (x <= hi)%Q) ->
  (lo <= Qmean l <= hi)%Q.
Proof.
  intros Hl Hlo Hhi. pose proof (length_pos_Q _ l Hl) as Hpos.
  unfold Qmean. split.
  - apply Qle_shift_div_l; [exact Hpos | now apply Qsum_lower].
  - apply Qle_shift_div_r; [exact Hpos | now apply Qsum_upper].
Qed.

(** The [<] of binary64 is irreflexive and transitive, NaN and the
    infinities included. *)
Lemma SFltb_irrefl (x : spec_float) : SFltb x x = false.
Proof.
  unfold SFltb, SFcompare.
  destruct x as [s | s | | s m e]; try (destruct s); try reflexivity.
  - rewrite Z.compare_refl.
    change (Pos.compare_cont Eq m m) with (Pos.compare m m).
    now rewrite Pos.compare_refl.
  - rewrite Z.compare_refl.
    change (Pos.compare_cont Eq m m) with (Pos.compare m m).
    now rewrite Pos.compare_refl.
Qed.

Lemma SFltb_trans (x y z : spec_float) :
  SFltb x y = true -> SFltb y z = true -> SFltb x z = true.
Proof.
  unfold SFltb, SFcompare.
  destruct x as [sx | sx | | sx mx ex]; destruct y as [sy | sy | | sy my ey];
    destruct z as [sz | sz | | sz mz ez];
    try (destruct sx); try (destruct sy); try (destruct sz);
    try reflexivity; try discriminate;
    change (Pos.compare_cont Eq) with Pos.compare;
    repeat match goal with
           | |- context [Z.compare ?a ?b] =>
               destruct (Z.compare_spec a b)
           | |- context [Pos.compare ?a ?b] =>
               destruct (Pos.compare_spec a b)
           end; cbn [CompOpp]; try reflexivity; try discriminate;
    intros _ _; exfalso; lia.
Qed.

Lemma float_lt_irrefl (x : float) : PrimFloat.ltb x x = false.
Proof. rewrite ltb_spec. apply SFltb_irrefl. Qed.

Lemma float_lt_trans (x y z : float) :
  PrimFloat.ltb x y = true -> PrimFloat.ltb y z = true ->
  PrimFloat.ltb x z = true.
Proof. rewrite !ltb_spec. apply SFltb_trans. Qed.

Section OrderedStatistics.
Context {T : Type} `{Number T}.
Hypothesis lt_irrefl : forall x : T, num_lt x x = false.
Hypothesis lt_trans :
  forall x y z : T, num_lt x y = true -> num_lt y z = true ->
                    num_lt x z = true.
Variable self : ResponseList.t T.
Hypothesis self_empty : ResponseList._responses self = [].

(** The least and the greatest elapsed time, in any arithmetic whose [<] is
    irreflexive and transitive. *)
Lemma extremes_of_series (l : list (Response.t T)) :
  l <> [] ->
  none_below (ResponseList.rtt_min (fold_left ResponseList.append l self))
             (elapsed_times l)
  /\ none_above (ResponseList.rtt_max (fold_left ResponseList.append l self))
                (elapsed_times l).
Proof.
  induction l as [| value l IH] using rev_ind; [congruence |]. intros _.
  destruct l as [| r0 l0].
  - cbn [app fold_left].
    destruct (append_to_empty T _ self value self_empty) as (_ & -> & ->).
    unfold none_below, none_above, elapsed_times. cbn [map In].
    split; (split; [now left | intros x [<- | []]; apply lt_irrefl]).
  - set (l := r0 :: l0) in *.
    assert (Hl : l <> []) by (subst l; discriminate).
    destruct (IH Hl) as ([Hmin_in Hmin_le] & [Hmax_in Hmax_le]).
    rewrite fold_append_snoc.
    cbn [ResponseList.append ResponseList.rtt_min ResponseList.rtt_max].
    rewrite fold_append_responses, self_empty, app_nil_l, length_snoc_Z.
    destruct (Z.eqb_spec (Z.of_nat (length l) + 1) 1) as [E | E];
      [destruct l; [congruence | cbn [length] in E; lia] |].
    unfold none_below, none_above, elapsed_times in *.
    rewrite map_app. cbn [map].
    split.
    + destruct (num_lt (Response.time_elapsed value) _) eqn:Hlt.
      * split; [apply in_or_app; right; now left |].
        intros x Hx. apply in_app_or in Hx.
        destruct Hx as [Hx | [<- | []]]; [| apply lt_irrefl].
        destruct (num_lt x (Response.time_elapsed value)) eqn:C;
          [| reflexivity].
        rewrite <- (Hmin_le x Hx). symmetry.
        exact (lt_trans _ _ _ C Hlt).
      * split; [apply in_or_app; now left |].
        intros x Hx. apply in_app_or in Hx.
        destruct Hx as [Hx | [<- | []]]; [now apply Hmin_le | exact Hlt].
    + destruct (num_lt _ (Response.time_elapsed value)) eqn:Hlt.
      * split; [apply in_or_app; right; now left |].
        intros x Hx. apply in_app_or in Hx.
        destruct Hx as [Hx | [<- | []]]; [| apply lt_irrefl].
        destruct (num_lt (Response.time_elapsed value) x) eqn:C;
          [| reflexivity].
        rewrite <- (Hmax_le x Hx). symmetry.
        exact (lt_trans _ _ _ Hlt C).
      * split; [apply in_or_app; now left |].
        intros x Hx. apply in_app_or in Hx.
        destruct Hx as [Hx | [<- | []]]; [now apply Hmax_le | exact Hlt].
Qed.

End OrderedStatistics.

(** C6, as the code computes it. Once results were appended to an empty
    series: in exact arithmetic rtt_avg is the arithmetic mean of their
    elapsed times, rtt_min the least and rtt_max the greatest of them; in
    binary64, the arithmetic of the program, rtt_min and rtt_max are still
    one of the elapsed times each, with none less than rtt_min and none
    greater than rtt_max; in any arithmetic the three are the elapsed time
    of the result after the first append; and elapsed times of 10ms, 20ms
    and 30ms give an average of 20ms, a minimum of 10ms and a maximum of
    30ms, in exact arithmetic and in binary64 alike.  Times are in
    seconds. *)
Theorem rtt_statistics_of_appended_results
        (self : ResponseList.t Q) (l : list (Response.t Q)) :
  ResponseList._responses self = [] ->
  l <> [] ->
  let r := fold_left ResponseList.append l self in
  ((ResponseList.rtt_avg r == Qmean (elapsed_times l))%Q
   /\ is_minimum (ResponseList.rtt_min r) (elapsed_times l)
   /\ is_maximum (ResponseList.rtt_max r) (elapsed_times l))
  /\ (forall (T : Type) (N : Number T) (first : ResponseList.t T) value,
         ResponseList._responses first = [] ->
         let r1 := ResponseList.append first value in
         ResponseList.rtt_avg r1 = Response.time_elapsed value
         /\ ResponseList.rtt_min r1 = Response.time_elapsed value
         /\ ResponseList.rtt_max r1 = Response.time_elapsed value)
  /\ (let e := ResponseList.init [replied (10 # 1000); replied (20 # 1000);
                                  timed_out (30 # 1000)]%Q in
      (ResponseList.rtt_avg e == 20 # 1000)%Q
      /\ ResponseList.rtt_min e = (10 # 1000)%Q
      /\ ResponseList.rtt_max e = (30 # 1000)%Q)
  /\ (let e := ResponseList.init [replied ms10; replied ms20;
                                  timed_out ms30] in
      ResponseList.rtt_avg e = ms20
      /\ ResponseList.rtt_min e = ms10
      /\ ResponseList.rtt_max e = ms30)
  /\ (forall (first : ResponseList.t float) (times : list (Response.t float)),
         ResponseList._responses first = [] ->
         times <> [] ->
         let r64 := fold_left ResponseList.append times first in
         none_below (ResponseList.rtt_min r64) (elapsed_times times)
         /\ none_above (ResponseList.rtt_max r64) (elapsed_times times)).
Proof.
  intros Hself Hl r. split; [| split; [| split; [| split]]].
  - exact (statistics_of_series self Hself l Hl).
  - intros T N first value Hfirst. exact (append_to_empty T N first value Hfirst).
  - cbv zeta. split; [| split]; vm_compute; reflexivity.
  - cbv zeta. split; [| split]; vm_compute; reflexivity.
  - intros first times Hfirst Htimes.
    exact (extremes_of_series float_lt_irrefl float_lt_trans first Hfirst
                              times Htimes).
Qed.

Lemma rtt_statistics_of_appended_results_witness :
  let self := ResponseList.init ([] : list (Response.t Q)) in
  let l := [replied (3 # 100); timed_out (2 # 1); replied (1 # 100)]%Q in
  let times := [replied ms30; timed_out tenth; replied ms10] in
  ResponseList._responses self = []
  /\ l <> []
  /\ (ResponseList.rtt_avg (fold_left ResponseList.append l self)
      == Qmean (elapsed_times l))%Q
  /\ none_below (ResponseList.rtt_min (ResponseList.init times))
                (elapsed_times times).
Proof.
  cbv zeta. split; [reflexivity | split; [discriminate |]].
  destruct (rtt_statistics_of_appended_results
              (ResponseList.init [])
              [replied (3 # 100); timed_out (2 # 1); replied (1 # 100)]%Q
              eq_refl)
    as ((Havg & _) & _ & _ & _ & Hfloat); [discriminate |].
  split; [exact Havg |].
  apply (Hfloat (ResponseList.init [])); [reflexivity | discriminate].
Defined.

(** C6 does not hold as the specification states it, in the arithmetic the
    program computes with.  Three attempts that each take 0.1 s, the double
    nearest to one tenth: the arithmetic mean of the three elapsed times is
    that very double, and rtt_avg is the next double above it,
    0.10000000000000002. *)
Lemma rtt_avg_is_not_the_mean_in_binary64 :
  let r := ResponseList.init [replied tenth; replied tenth; replied tenth] in
  let times := elapsed_times (ResponseList._responses r) in
  times = [tenth; tenth; tenth]
  /\ (Qmean (map exact_value times) == exact_value tenth)%Q
  /\ ResponseList.rtt_avg r = 0x1.999999999999bp-4%float
  /\ ~ (exact_value (ResponseList.rtt_avg r)
        == Qmean (map exact_value times))%Q.
Proof.
  cbv zeta. split; [reflexivity | split; [| split]].
  - vm_compute. reflexivity.
  - vm_compute. reflexivity.
  - vm_compute. discriminate.
Qed.

(** C10, in exact arithmetic. Once results were appended to an empty series,
    rtt_min <= rtt_avg <= rtt_max, whatever their elapsed times. *)
Theorem rtt_avg_between_rtt_min_and_rtt_max
        (self : ResponseList.t Q) (l : list (Response.t Q)) :
  ResponseList._responses self = [] ->
  l <> [] ->
  let r := fold_left ResponseList.append l self in
  (ResponseList.rtt_min r <= ResponseList.rtt_avg r <= ResponseList.rtt_max r)%Q.
Proof.
  intros Hself Hl r.
  destruct (statistics_of_series self Hself l Hl)
    as (Havg & [_ Hmin] & [_ Hmax]).
  fold r in Havg, Hmin, Hmax.
  assert (He : elapsed_times l <> []) by (destruct l; [congruence | discriminate]).
  destruct (Qmean_between _ _ (elapsed_times l) He Hmin Hmax) as [Hlo Hhi].
  split.
  - now rewrite Havg.
  - now rewrite Havg.
Qed.

Lemma rtt_avg_between_rtt_min_and_rtt_max_witness :
  let self := ResponseList.init ([] : list (Response.t Q)) in
  let l := [timed_out (1 # 10); timed_out (1 # 10); timed_out (1 # 10)]%Q in
  ResponseList._responses self = []
  /\ l <> []
  /\ (ResponseList.rtt_min (fold_left ResponseList.append l self)
      <= ResponseList.rtt_avg (fold_left ResponseList.append l self)
      <= ResponseList.rtt_max (fold_left ResponseList.append l self))%Q.
Proof.
  cbv zeta. split; [reflexivity | split; [discriminate |]].
  apply (rtt_avg_between_rtt_min_and_rtt_max
           (ResponseList.init [])
           [timed_out (1 # 10); timed_out (1 # 10); timed_out (1 # 10)]%Q);
    [reflexivity | discriminate].
Defined.

(** C10 does not hold in binary64, the arithmetic of the program. Three
    attempts that each time out after 0.1 s leave rtt_min = rtt_max = 0.1
    and rtt_avg one unit in the last place above, (0.1 * 2 + 0.1) / 3 being
    rounded twice: rtt_avg <= rtt_max is false. *)
Lemma rtt_avg_above_rtt_max_in_binary64 :
  let r := ResponseList.init [timed_out tenth; timed_out tenth;
                              timed_out tenth] in
  ResponseList.rtt_min r = tenth
  /\ ResponseList.rtt_max r = tenth
  /\ ResponseList.rtt_avg r = 0x1.999999999999bp-4%float
  /\ PrimFloat.leb (ResponseList.rtt_avg r) (ResponseList.rtt_max r) = false.
Proof. cbv zeta. repeat split; vm_compute; reflexivity. Qed.

(** ** listen_for *)

Lemma bytes_eqb_eq (a b : bytes) : bytes_eqb a b = true <-> a = b.
Proof.
  revert b. induction a as [| x a IH]; intros [| y b]; cbn [bytes_eqb];
    try (split; [discriminate | congruence]); [tauto |].
  rewrite andb_true_iff, IH. split.
  - intros [Hx ->]. apply Byte.byte_dec_bl in Hx. now subst.
  - intros E. injection E as -> ->. split; [now apply Byte.byte_dec_lb | easy].
Qed.

Lemma last_cons (A : Type) (l : list A) :
  forall x d : A, last (x :: l) d = last l x.
Proof.
  induction l as [| y l IH]; intros x d; [reflexivity |].
  change (last (x :: y :: l) d) with (last (y :: l) d).
  rewrite (IH y d), (IH y x). reflexivity.
Qed.

Lemma reply_matches_iff (packet_id : Z) (payload_pattern : option bytes)
      (response : icmp.ICMP) :
  Communicator.reply_matches packet_id payload_pattern response = true
  <-> icmp.id response = packet_id
      /\ icmp.message_type response <> icmp.EchoRequest_type_id
      /\ match payload_pattern with
         | None => True
         | Some pattern => icmp.payload response = pattern
         end.
Proof.
  unfold Communicator.reply_matches.
  destruct (Z.eqb_spec (icmp.id response) packet_id) as [Hid | Hid];
    destruct (Z.eqb_spec (icmp.message_type response)
                         icmp.EchoRequest_type_id) as [Hty | Hty];
    cbn [andb negb]; try (split; [discriminate | tauto]).
  destruct payload_pattern as [pattern |].
  - rewrite bytes_eqb_eq. split; [intros ->; tauto | intros (_ & _ & ->); easy].
  - tauto.
Qed.

Section ListenForFacts.
Context {T : Type} `{Number T}.
Variable unpack : bytes -> option icmp.ICMP.
Variables (packet_id : Z) (timeout : T) (payload_pattern : option bytes).

Let loop := Communicator.listen_loop unpack packet_id timeout payload_pattern.

(** The loop goes over a delivery that is not the reply. *)
Lemma listen_loop_passes_by (time_left : T) (d : delivery)
      (rest : list (Communicator.received T)) :
  remains time_left = true ->
  passes_by unpack packet_id payload_pattern d = true ->
  loop time_left (as_received d :: rest) = loop (budget_left d) rest.
Proof.
  unfold remains, passes_by, loop. intros Hpos Hpass.
  destruct d as [[raw src] tl]. cbn [fst snd budget_left as_received] in *.
  cbn [Communicator.listen_loop]. rewrite Hpos.
  destruct raw as [| b raw]; [reflexivity |].
  destruct (unpack (b :: raw)) as [response |]; [| discriminate].
  apply negb_true_iff in Hpass. now rewrite Hpass.
Qed.

Lemma listen_loop_skips (pre : list delivery) :
  forall (time_left : T) (rest : list (Communicator.received T)),
    forallb (passes_by unpack packet_id payload_pattern) pre = true ->
    forallb remains (removelast (time_left :: map budget_left pre)) = true ->
    loop time_left (map as_received pre ++ rest)
    = loop (last (map budget_left pre) time_left) rest.
Proof.
  induction pre as [| d pre IH]; intros time_left rest Hpass Hpos.
  - reflexivity.
  - cbn [forallb] in Hpass. apply andb_true_iff in Hpass as [Hd Hpre].
    change (removelast (time_left :: map budget_left (d :: pre)))
      with (time_left :: removelast (budget_left d :: map budget_left pre))
      in Hpos.
    cbn [forallb] in Hpos. apply andb_true_iff in Hpos as [Ht Hrest].
    cbn [map app]. rewrite (listen_loop_passes_by _ _ _ Ht Hd).
    rewrite (IH _ _ Hpre Hrest).
    f_equal. cbn [map]. symmetry. apply last_cons.
Qed.

(** What the loop hands back is a suffix of what it was given, and a
    proper one when it returns a message. *)
Lemma listen_loop_consumes (socket : list (Communicator.received T)) :
  forall time_left out rest,
    loop time_left socket = (out, rest) ->
    (length rest <= length socket)%nat
    /\ (forall m e, out = Returned (Response.Response (Some m) e) ->
                    (length rest < length socket)%nat).
Proof.
  unfold loop.
  induction socket as [| ev socket IH]; intros time_left out rest;
    cbn [Communicator.listen_loop].
  - destruct (_ >? _)%py; intros E; injection E as <- <-;
      (split; [apply Nat.le_refl | discriminate]).
  - destruct (_ >? _)%py.
    + destruct ev as [raw src tl |].
      * assert (Hrec :
            Communicator.listen_loop unpack packet_id timeout
                                     payload_pattern tl socket = (out, rest)
            -> (length rest <= length (Communicator.Packet raw src tl :: socket))%nat
               /\ (forall m e, out = Returned (Response.Response (Some m) e) ->
                     (length rest < length (Communicator.Packet raw src tl :: socket))%nat)).
        { intros E. destruct (IH _ _ _ E) as [Hle Hlt]. cbn [length]. split.
          - lia.
          - intros m e Ho. specialize (Hlt m e Ho). lia. }
        destruct raw as [| b raw]; [exact Hrec |].
        destruct (unpack (b :: raw)) as [response |].
        -- destruct (Communicator.reply_matches _ _ _); [| exact Hrec].
           intros E. injection E as <- <-. cbn [length]. split; [lia |].
           intros; lia.
        -- intros E. injection E as <- <-. cbn [length].
           split; [lia | discriminate].
      * intros E. injection E as <- <-. cbn [length].
        split; [lia | discriminate].
    + intros E. injection E as <- <-. split; [apply Nat.le_refl | discriminate].
Qed.

End ListenForFacts.

(** C4. listen_for is given a budget of [timeout].  While the budget is not
    used up, deliveries that are not the reply are passed by.  If the budget
    is then used up, the result has no message and its elapsed time is
    [timeout]; if instead the next delivery is the reply, the result carries
    that message and its elapsed time is [timeout] minus the budget that
    delivery left.  The calls of receive not made stay with the socket. *)
Theorem listen_for_result
        (T : Type) (N : Number T) (unpack : bytes -> option icmp.ICMP)
        (packet_id : Z) (timeout : T) (payload_pattern : option bytes)
        (pre : list delivery) (rest : list (Communicator.received T)) :
  forallb (passes_by unpack packet_id payload_pattern) pre = true ->
  forallb remains (removelast (timeout :: map budget_left pre)) = true ->
  (remains (last (map budget_left pre) timeout) = false ->
   Communicator.listen_for unpack (map as_received pre ++ rest)
                           packet_id timeout payload_pattern
   = (Returned (Response.Response None timeout), rest))
  /\ (forall raw_packet source_socket time_left response,
         remains (last (map budget_left pre) timeout) = true ->
         raw_packet <> [] ->
         unpack raw_packet = Some response ->
         Communicator.reply_matches packet_id payload_pattern response = true ->
         Communicator.listen_for
           unpack
           (map as_received pre
            ++ Communicator.Packet raw_packet source_socket time_left :: rest)
           packet_id timeout payload_pattern
         = (Returned
              (Response.Response
                 (Some {| target := ""; packet := response;
                          source := source_socket |})
                 (num_sub timeout time_left)),
            rest)).
Proof.
  intros Hpass Hpos. unfold Communicator.listen_for. split.
  - intros Hout.
    rewrite (listen_loop_skips unpack packet_id timeout payload_pattern
                               pre timeout rest Hpass Hpos).
    unfold remains in Hout.
    destruct rest; cbn [Communicator.listen_loop]; now rewrite Hout.
  - intros raw src tl response Hleft Hraw Hunpack Hmatch.
    rewrite (listen_loop_skips unpack packet_id timeout payload_pattern
                               pre timeout _ Hpass Hpos).
    unfold remains in Hleft. cbn [Communicator.listen_loop]. rewrite Hleft.
    destruct raw as [| b raw]; [congruence |].
    now rewrite Hunpack, Hmatch.
Qed.

Lemma listen_for_result_witness :
  let pre := [(stray_bytes, "10.0.0.9", 3 # 2); (request_bytes, "10.0.0.7", 5 # 4);
              ([], "", 1 # 1)]%string%Q in
  forallb (passes_by decode 7 None) pre = true
  /\ forallb remains (removelast (2%Q :: map budget_left pre)) = true
  /\ Communicator.listen_for
       decode
       (map as_received pre
        ++ [Communicator.Packet reply_bytes "10.0.0.1" (1 # 2)%Q])
       7 2%Q None
     = (Returned
          (Response.Response
             (Some {| target := "";
                      packet := {| icmp.message_type := 0;
                                   icmp.message_code := 0;
                                   icmp.id := 7;
                                   icmp.sequence_number := 1;
                                   icmp.payload := [x61] |};
                      source := "10.0.0.1" |})
             (2 - (1 # 2))%Q),
        []).
Proof.
  cbv zeta. split; [reflexivity | split; [reflexivity |]].
  destruct (listen_for_result
              Q Q_Number decode 7 2%Q None
              [(stray_bytes, "10.0.0.9", 3 # 2); (request_bytes, "10.0.0.7", 5 # 4);
               ([], "", 1 # 1)]%string%Q
              [] eq_refl eq_refl) as [_ Hreply].
  apply Hreply; [reflexivity | discriminate | reflexivity | reflexivity].
Defined.

(** The other branch: the budget is used up (the third call of receive
    leaves none) before the reply is read, which stays with the socket. *)
Example listen_for_times_out :
  Communicator.listen_for
    decode
    [Communicator.Packet stray_bytes "10.0.0.9" (3 # 2)%Q;
     Communicator.Packet request_bytes "10.0.0.7" (5 # 4)%Q;
     Communicator.Packet [] "" 0%Q;
     Communicator.Packet reply_bytes "10.0.0.1" (1 # 2)%Q]
    7 2%Q None
  = (Returned (Response.Response None 2%Q),
     [Communicator.Packet reply_bytes "10.0.0.1" (1 # 2)%Q]).
Proof. reflexivity. Qed.

(** One turn of the loop at a packet that unpacks. *)
Lemma listen_loop_at_packet
      (T : Type) (N : Number T) (unpack : bytes -> option icmp.ICMP)
      (packet_id : Z) (timeout time_left : T)
      (payload_pattern : option bytes)
      (raw_packet : bytes) (source_socket : string) (time_left' : T)
      (response : icmp.ICMP) (rest : list (Communicator.received T)) :
  remains time_left = true ->
  raw_packet <> [] ->
  unpack raw_packet = Some response ->
  Communicator.listen_loop
    unpack packet_id timeout payload_pattern time_left
    (Communicator.Packet raw_packet source_socket time_left' :: rest)
  = if Communicator.reply_matches packet_id payload_pattern response
    then (Returned
            (Response.Response
               (Some {| target := ""; packet := response;
                        source := source_socket |})
               (num_sub timeout time_left')),
          rest)
    else Communicator.listen_loop unpack packet_id timeout payload_pattern
                                  time_left' rest.
Proof.
  unfold remains. intros Hleft Hraw Hunpack. cbn [Communicator.listen_loop].
  rewrite Hleft. destruct raw_packet as [| b raw]; [congruence |].
  now rewrite Hunpack.
Qed.

(** C5. listen_for has passed by the deliveries before, each leaving some of
    the budget.  The packet that comes next, and that unpacks, is accepted
    as the reply (listen_for returns it, with the elapsed time it left and
    without a further call of receive) exactly when its identifier is the
    request's, its type is not Echo Request and, if a payload is to be
    matched, its payload is byte for byte the one sent.  Otherwise it is
    passed by like the deliveries before it: listen_for goes on with the
    next call of receive, and returns the timeout if the packet left no
    budget. *)
Theorem listen_for_accepts_iff
        (T : Type) (N : Number T) (unpack : bytes -> option icmp.ICMP)
        (packet_id : Z) (timeout : T) (payload_pattern : option bytes)
        (pre : list delivery)
        (raw_packet : bytes) (source_socket : string) (time_left : T)
        (response : icmp.ICMP) (rest : list (Communicator.received T)) :
  forallb (passes_by unpack packet_id payload_pattern) pre = true ->
  forallb remains (removelast (timeout :: map budget_left pre)) = true ->
  remains (last (map budget_left pre) timeout) = true ->
  raw_packet <> [] ->
  unpack raw_packet = Some response ->
  let accepted :=
    (Returned
       (Response.Response
          (Some {| target := ""; packet := response;
                   source := source_socket |})
          (num_sub timeout time_left)),
     rest) in
  let heard :=
    Communicator.listen_for
      unpack
      (map as_received pre
       ++ Communicator.Packet raw_packet source_socket time_left :: rest)
      packet_id timeout payload_pattern in
  (heard = accepted
   <-> icmp.id response = packet_id
       /\ icmp.message_type response <> icmp.EchoRequest_type_id
       /\ match payload_pattern with
          | None => True
          | Some sent => icmp.payload response = sent
          end)
  /\ (heard <> accepted ->
      passes_by unpack packet_id payload_pattern
                (raw_packet, source_socket, time_left) = true
      /\ heard
         = Communicator.listen_loop unpack packet_id timeout payload_pattern
                                    time_left rest
      /\ (remains time_left = false ->
          heard = (Returned (Response.Response None timeout), rest))).
Proof.
  intros Hpass Hpos Hleft Hraw Hunpack accepted heard.
  assert (Hstep :
            heard
            = if Communicator.reply_matches packet_id payload_pattern response
              then accepted
              else Communicator.listen_loop
                     unpack packet_id timeout payload_pattern time_left rest).
  { unfold heard, Communicator.listen_for.
    rewrite (listen_loop_skips unpack packet_id timeout payload_pattern
                               pre timeout _ Hpass Hpos).
    now apply listen_loop_at_packet. }
  assert (Hby :
            passes_by unpack packet_id payload_pattern
                      (raw_packet, source_socket, time_left)
            = negb (Communicator.reply_matches packet_id payload_pattern
                                               response)).
  { unfold passes_by. cbn [fst]. destruct raw_packet as [| b raw];
      [congruence |]. now rewrite Hunpack. }
  rewrite Hstep, Hby, <- reply_matches_iff.
  destruct (Communicator.reply_matches packet_id payload_pattern response).
  - split; [tauto | congruence].
  - split.
    + split; [| discriminate].
      intros E. exfalso.
      destruct (listen_loop_consumes unpack packet_id timeout payload_pattern
                                     rest time_left _ _ E) as [_ Hlt].
      specialize (Hlt _ _ eq_refl). lia.
    + intros _. split; [reflexivity | split; [reflexivity |]].
      unfold remains. intros Hout.
      destruct rest; cbn [Communicator.listen_loop]; now rewrite Hout.
Qed.

Lemma listen_for_accepts_iff_witness :
  let response :=
    {| icmp.message_type := 0; icmp.message_code := 0; icmp.id := 7;
       icmp.sequence_number := 1; icmp.payload := [x61] |} in
  let pre := [(stray_bytes, "10.0.0.9", 3 # 2);
              (request_bytes, "10.0.0.7", 5 # 4)]%string%Q in
  forallb (passes_by decode 7 (Some [x61])) pre = true
  /\ forallb remains (removelast (2%Q :: map budget_left pre)) = true
  /\ remains (last (map budget_left pre) 2%Q) = true
  /\ reply_bytes <> []
  /\ decode reply_bytes = Some response
  /\ Communicator.listen_for
       decode
       (map as_received pre
        ++ [Communicator.Packet reply_bytes "10.0.0.1" (1 # 2)%Q])
       7 2%Q (Some [x61])
     = (Returned
          (Response.Response
             (Some {| target := ""; packet := response;
                      source := "10.0.0.1" |})
             (2 - (1 # 2))%Q),
        []).
Proof.
  cbv zeta.
  split; [reflexivity | split; [reflexivity | split; [reflexivity |]]].
  split; [discriminate | split; [reflexivity |]].
  apply (listen_for_accepts_iff
           Q Q_Number decode 7 2%Q (Some [x61])
           [(stray_bytes, "10.0.0.9", 3 # 2);
            (request_bytes, "10.0.0.7", 5 # 4)]%string%Q
           reply_bytes "10.0.0.1" (1 # 2)%Q
           {| icmp.message_type := 0; icmp.message_code := 0; icmp.id := 7;
              icmp.sequence_number := 1; icmp.payload := [x61] |}
           [] eq_refl eq_refl eq_refl);
    [discriminate | reflexivity |].
  split; [reflexivity | split; [discriminate | reflexivity]].
Defined.

(** With the same identifier, the request heard back is not accepted, nor is
    a reply whose payload differs from the one sent. *)
Example listen_for_rejects :
  fst (Communicator.listen_for
         decode [Communicator.Packet request_bytes "10.0.0.7" 0%Q] 7 2%Q None)
  = Returned (Response.Response None 2%Q)
  /\ fst (Communicator.listen_for
            decode [Communicator.Packet reply_bytes "10.0.0.1" 0%Q] 7 2%Q
            (Some [x62]))
     = Returned (Response.Response None 2%Q).
Proof. split; reflexivity. Qed.

(** ** The overall deadline of run *)


Lemma append_length (T : Type) (N : Number T) (self : ResponseList.t T)
      (value : Response.t T) :
  length (ResponseList._responses (ResponseList.append self value))
  = S (length (ResponseList._responses self)).
Proof.
  cbn [ResponseList.append ResponseList._responses].
  rewrite length_app. cbn [length]. lia.
Qed.

Section Deadline.
Variable unpack : bytes -> option icmp.ICMP.
Variable self : Communicator.t Q.
Variables (match_payloads : bool) (start_time : Q) (identifier : Z).
Variables (limit : Q) (k : nat).
Hypothesis limited : Communicator.overall_timeout self = Some limit.
Hypothesis interval_nonneg : (0 <= Communicator.interval self)%Q.
Hypothesis enough :
  (limit <= inject_Z (Z.of_nat k) * Communicator.interval self)%Q.



End Deadline.




(** ** The identifier of a session *)

Lemma contains_true_iff (l : list Z) (x : Z) : contains l x = true <-> In x l.
Proof.
  unfold contains. rewrite existsb_exists. split.
  - intros (y & Hy & E). apply Z.eqb_eq in E. now subst.
  - intros Hx. exists x. split; [exact Hx | apply Z.eqb_refl].
Qed.

Lemma contains_false_iff (l : list Z) (x : Z) :
  contains l x = false <-> ~ In x l.
Proof.
  rewrite <- contains_true_iff. destruct (contains l x); split; congruence.
Qed.

Lemma randint_range (a b e : Z) : a <= b -> a <= randint a b e <= b.
Proof.
  intros Hab. unfold randint.
  pose proof (Z.mod_pos_bound e (b - a + 1)). lia.
Qed.

(** The loop of ping returns a number of 1..65535 that was not in the list,
    and puts it at the end. *)
Lemma allocate_some (SEED_IDs : list Z) (entropy : list Z) (seed_id : Z)
      (ids : list Z) :
  allocate SEED_IDs entropy = Some (seed_id, ids) ->
  1 <= seed_id <= 65535
  /\ contains SEED_IDs seed_id = false
  /\ ids = SEED_IDs ++ [seed_id].
Proof.
  induction entropy as [| e entropy IH]; [discriminate |].
  change (allocate SEED_IDs (e :: entropy))
    with (if negb (contains SEED_IDs (randint 1 65535 e))
          then Some (randint 1 65535 e, SEED_IDs ++ [randint 1 65535 e])
          else allocate SEED_IDs entropy).
  destruct (contains SEED_IDs (randint 1 65535 e)) eqn:E; cbn [negb].
  - exact IH.
  - intros H. assert (Hid : seed_id = randint 1 65535 e) by congruence.
    assert (Hids : ids = SEED_IDs ++ [randint 1 65535 e]) by congruence.
    subst seed_id ids.
    split; [apply randint_range; lia | split; [exact E | reflexivity]].
Qed.

(** It returns as soon as a draw is not in the list. *)
Lemma allocate_free (SEED_IDs : list Z) (e : Z) (entropy : list Z) :
  contains SEED_IDs (randint 1 65535 e) = false ->
  allocate SEED_IDs (e :: entropy)
  = Some (randint 1 65535 e, SEED_IDs ++ [randint 1 65535 e]).
Proof.
  intros E.
  change (allocate SEED_IDs (e :: entropy))
    with (if negb (contains SEED_IDs (randint 1 65535 e))
          then Some (randint 1 65535 e, SEED_IDs ++ [randint 1 65535 e])
          else allocate SEED_IDs entropy).
  now rewrite E.
Qed.

Lemma list_remove_last (l : list Z) (x : Z) :
  contains l x = false -> list_remove (l ++ [x]) x = Some l.
Proof.
  induction l as [| y l IH]; cbn [app list_remove contains existsb].
  - now rewrite Z.eqb_refl.
  - intros E. apply orb_false_iff in E as [Hxy Hl].
    rewrite Z.eqb_sym, Hxy. unfold contains in IH. now rewrite (IH Hl).
Qed.

(** C3, as the code has it. Let the loop of ping have picked [seed_id] and
    appended it to SEED_IDs.  When the socket is created and run returns, be
    it at the end of the payloads or at the overall timeout, ping removes
    [seed_id]: SEED_IDs is again what it was before the call.  When the
    creation of the socket fails, or run raises, the exception leaves ping
    before the removal and [seed_id] stays in SEED_IDs. *)
Theorem ping_releases_identifier_on_return
        (T : Type) (N : Number T) (unpack : bytes -> option icmp.ICMP)
        (SEED_IDs : list Z) (provider : list bytes) (timeout : T)
        (match_ : bool) (overall_timeout : option T) (env : environment T)
        (seed_id : Z) (ids : list Z) :
  allocate SEED_IDs (entropy env) = Some (seed_id, ids) ->
  let comm :=
    {| Communicator.provider := provider;
       Communicator.timeout := timeout;
       Communicator.responses := ResponseList.init [];
       Communicator.seed_id := seed_id;
       Communicator.interval := of_int 1;
       Communicator.overall_timeout := overall_timeout |} in
  let session :=
    Communicator.run unpack comm match_ (start env) (attempts env) in
  let result :=
    ping unpack SEED_IDs provider timeout match_ overall_timeout env in
  ids = SEED_IDs ++ [seed_id]
  /\ contains SEED_IDs seed_id = false
  /\ (forall responses sent,
         socket_fault env = false ->
         session = Returned (responses, sent) ->
         result = (Returned responses, SEED_IDs))
  /\ (socket_fault env = true ->
      result = (Raised TransportError, SEED_IDs ++ [seed_id]))
  /\ (forall e,
         socket_fault env = false ->
         session = Raised e ->
         result = (Raised e, SEED_IDs ++ [seed_id])).
Proof.
  intros Halloc comm session result.
  destruct (allocate_some _ _ _ _ Halloc) as (_ & Hfree & ->).
  split; [reflexivity | split; [exact Hfree |]].
  subst result. unfold ping. rewrite Halloc. fold comm. fold session.
  split; [| split].
  - intros responses sent -> ->. now rewrite (list_remove_last _ _ Hfree).
  - now intros ->.
  - now intros e -> ->.
Qed.

Lemma ping_releases_identifier_on_return_witness :
  allocate [] (entropy calm) = Some (7, [7])
  /\ fst (ping decode [] [[x61]] 2%Q false None calm)
     = Returned
         (ResponseList.set_stop_time
            (ResponseList.set_start_time
               (ResponseList.init
                  [Response.Response
                     (Some {| target := "";
                              packet := {| icmp.message_type := 0;
                                           icmp.message_code := 0;
                                           icmp.id := 7;
                                           icmp.sequence_number := 1;
                                           icmp.payload := [x61] |};
                              source := "10.0.0.1" |})
                     (2 - 15 / 8)%Q])
               0%Q)
            (1 # 8)%Q)
  /\ snd (ping decode [] [[x61]] 2%Q false None calm) = [].
Proof.
  split; [reflexivity |].
  destruct (ping_releases_identifier_on_return
              Q Q_Number decode [] [[x61]] 2%Q false None calm 7 [7] eq_refl)
    as (_ & _ & Hreturn & _).
  rewrite (Hreturn _ _ eq_refl eq_refl). split; reflexivity.
Defined.

(** The early break: ten payloads and an overall timeout of 2.5 s; run
    returns after the third attempt, and SEED_IDs is empty again. *)
Example ping_releases_identifier_on_early_break :
  let result :=
    ping decode [] (repeat [x61] 10) 2%Q false (Some (5 # 2)%Q)
         {| entropy := [6]; socket_fault := false; start := 0%Q;
            attempts := prompt_replies |} in
  match fst result with
  | Returned responses =>
      length (ResponseList._responses responses) = 3%nat
  | _ => False
  end
  /\ snd result = [].
Proof. cbv zeta. split; vm_compute; reflexivity. Qed.

(** C3 does not hold as the specification states it. The socket refuses
    the request of a call that drew 7: the exception leaves ping and 7 stays
    in SEED_IDs; likewise when the socket cannot be created. *)
Lemma ping_keeps_identifier_on_fault :
  ping decode [] [[x61]] 2%Q false None send_refused
  = (Raised TransportError, [7])
  /\ ping decode [] [[x61]] 2%Q false None socket_refused
     = (Raised TransportError, [7]).
Proof. split; reflexivity. Qed.

(** ** Identifiers of sessions that run at the same time *)

Lemma list_remove_some (l : list Z) (x : Z) :
  In x l -> exists l', list_remove l x = Some l'.
Proof.
  induction l as [| y l IH]; cbn [In list_remove]; [easy |].
  destruct (Z.eqb_spec y x) as [-> | Hne]; [eauto |].
  intros [-> | Hin]; [congruence |].
  destruct (IH Hin) as [l' ->]. eauto.
Qed.

Lemma list_remove_keeps (l : list Z) (x : Z) :
  forall l', list_remove l x = Some l' ->
             (forall y, In y l' -> In y l)
             /\ (forall y, In y l -> y <> x -> In y l').
Proof.
  induction l as [| y l IH]; cbn [list_remove]; [discriminate |].
  intros l'. destruct (Z.eqb_spec y x) as [-> | Hne].
  - intros E. injection E as <-. split.
    + intros z Hz. now right.
    + intros z [<- | Hz] Hzx; [congruence | exact Hz].
  - destruct (list_remove l x) as [r |]; [| discriminate].
    intros E. injection E as <-. destruct (IH r eq_refl) as [Hsub Hsup]. split.
    + intros z [<- | Hz]; [now left | right; auto].
    + intros z [<- | Hz] Hzx; [now left | right; auto].
Qed.

Lemma list_remove_NoDup (l : list Z) (x : Z) :
  forall l', NoDup l -> list_remove l x = Some l' -> NoDup l' /\ ~ In x l'.
Proof.
  induction l as [| y l IH]; cbn [list_remove]; [discriminate |].
  intros l' Hnd. inversion Hnd as [| y' l0 Hy Hl]; subst.
  destruct (Z.eqb_spec y x) as [-> | Hne].
  - intros E. injection E as <-. easy.
  - destruct (list_remove l x) as [r |] eqn:Er; [| discriminate].
    intros E. injection E as <-.
    destruct (IH r Hl eq_refl) as [Hr Hx].
    destruct (list_remove_keeps l x r Er) as [Hsub _]. split.
    + constructor; [intros C; apply Hy, Hsub, C | exact Hr].
    + intros [C | C]; [congruence | auto].
Qed.

Section SerialThreads.
Import Threads.

Lemma at_move (w : world) (i j : nat) (p : point) (ids : list Z) :
  at_ (move w i p ids) j = if Nat.eqb j i then p else at_ w j.
Proof. reflexivity. Qed.

Lemma sound_initial : sound initial.
Proof.
  split; [constructor | split]; cbn [initial at_]; intros; discriminate.
Qed.

Lemma sound_step (w w' : world) : sound w -> serial_step w w' -> sound w'.
Proof.
  intros (Hnd & Hin & Huniq) Hstep.
  destruct Hstep as [w i entropy seed_id ids Hat Halloc
                    | w i seed_id ids Hat Hrem
                    | w i seed_id Hat
                    | w i Hat].
  - destruct (allocate_some _ _ _ _ Halloc) as (Hrange & Hfree & ->).
    apply contains_false_iff in Hfree.
    split; [| split]; cbn [move SEED_IDs].
    + apply NoDup_app; repeat split; [exact Hnd | repeat constructor; easy |].
      intros x Hx [<- | []]. auto.
    + intros j id. rewrite at_move. destruct (Nat.eqb_spec j i) as [-> | Hne].
      * intros E. injection E as <-. split; [| exact Hrange].
        apply in_or_app. right. now left.
      * intros E. destruct (Hin _ _ E) as [Hid Hr].
        split; [apply in_or_app; now left | exact Hr].
    + intros j1 j2 id. rewrite !at_move.
      destruct (Nat.eqb_spec j1 i) as [-> | H1];
        destruct (Nat.eqb_spec j2 i) as [-> | H2]; try easy.
      * intros E1 E2. injection E1 as <-. now destruct (Hin _ _ E2).
      * intros E1 E2. injection E2 as <-. now destruct (Hin _ _ E1).
      * apply Huniq.
  - destruct (list_remove_NoDup _ _ _ Hnd Hrem) as [Hnd' Hgone].
    destruct (list_remove_keeps _ _ _ Hrem) as [_ Hkeep].
    split; [exact Hnd' | split]; cbn [move SEED_IDs].
    + intros j id. rewrite at_move. destruct (Nat.eqb_spec j i) as [-> | Hne];
        [discriminate |].
      intros E. destruct (Hin _ _ E) as [Hid Hr]. split; [| exact Hr].
      apply Hkeep; [exact Hid |]. intros ->. apply Hne. eapply Huniq; eassumption.
    + intros j1 j2 id. rewrite !at_move.
      destruct (Nat.eqb_spec j1 i); [discriminate |].
      destruct (Nat.eqb_spec j2 i); [discriminate |]. apply Huniq.
  - split; [exact Hnd | split]; cbn [move SEED_IDs].
    + intros j id. rewrite at_move. destruct (Nat.eqb_spec j i);
        [discriminate | apply Hin].
    + intros j1 j2 id. rewrite !at_move.
      destruct (Nat.eqb_spec j1 i); [discriminate |].
      destruct (Nat.eqb_spec j2 i); [discriminate |]. apply Huniq.
  - split; [exact Hnd | split]; cbn [move SEED_IDs].
    + intros j id. rewrite at_move. destruct (Nat.eqb_spec j i);
        [discriminate | apply Hin].
    + intros j1 j2 id. rewrite !at_move.
      destruct (Nat.eqb_spec j1 i); [discriminate |].
      destruct (Nat.eqb_spec j2 i); [discriminate |]. apply Huniq.
Qed.

Lemma reachable_front (R : world -> world -> Prop) (w0 w1 w2 : world) :
  R w0 w1 -> reachable R w1 w2 -> reachable R w0 w2.
Proof.
  intros Hfirst Hrest. induction Hrest as [| w2 w3 _ IH Hstep].
  - eapply reach_step; [apply reach_refl | exact Hfirst].
  - eapply reach_step; [exact IH | exact Hstep].
Qed.

(** A run of the loop as one step is a run of its statements with no other
    thread in between. *)
Lemma allocate_is_steps (i : nat) (entropy : list Z) :
  forall (w : world) (seed_id : Z) (ids : list Z),
    at_ w i = AtDraw ->
    allocate (SEED_IDs w) entropy = Some (seed_id, ids) ->
    exists w', reachable step w w'
               /\ same w' (move w i (InSession seed_id) ids).
Proof.
  induction entropy as [| e entropy IH]; intros w seed_id ids Hat;
    [discriminate |].
  change (allocate (SEED_IDs w) (e :: entropy))
    with (if negb (contains (SEED_IDs w) (randint 1 65535 e))
          then Some (randint 1 65535 e, SEED_IDs w ++ [randint 1 65535 e])
          else allocate (SEED_IDs w) entropy).
  set (drawn := randint 1 65535 e).
  set (w1 := move w i (AtTest drawn) (SEED_IDs w)).
  assert (Hdraw : step w w1) by (apply step_draw; exact Hat).
  assert (Hat1 : at_ w1 i = AtTest drawn)
    by (subst w1; rewrite at_move, Nat.eqb_refl; reflexivity).
  destruct (contains (SEED_IDs w) drawn) eqn:E; cbn [negb].
  - set (w2 := move w1 i AtDraw (SEED_IDs w1)).
    assert (Hat2 : at_ w2 i = AtDraw)
      by (subst w2; rewrite at_move, Nat.eqb_refl; reflexivity).
    intros Halloc. destruct (IH w2 seed_id ids Hat2 Halloc) as (w' & Hreach & Hids & Hpts).
    exists w'. split.
    + apply (reachable_front _ _ w1); [exact Hdraw |].
      apply (reachable_front _ _ w2); [| exact Hreach].
      apply step_test_taken with (seed_id := drawn); [exact Hat1 | exact E].
    + split; [exact Hids |]. intros j. rewrite Hpts. subst w2 w1.
      rewrite !at_move. destruct (Nat.eqb j i); reflexivity.
  - intros Halloc. injection Halloc as <- <-.
    set (w2 := move w1 i (AtAppend drawn) (SEED_IDs w1)).
    set (w3 := move w2 i (InSession drawn) (SEED_IDs w2 ++ [drawn])).
    exists w3. split.
    + apply (reachable_front _ _ w1); [exact Hdraw |].
      apply (reachable_front _ _ w2);
        [apply step_test_free; [exact Hat1 | exact E] |].
      apply (reachable_front _ _ w3); [| apply reach_refl].
      apply step_append. subst w2. rewrite at_move, Nat.eqb_refl. reflexivity.
    + split; [reflexivity |]. intros j. subst w3 w2 w1. rewrite !at_move.
      destruct (Nat.eqb j i); reflexivity.
Qed.

(** Whatever the interleaving, the number a thread has drawn is one of
    1..65535. *)
Lemma drawn_in_range (w : world) :
  reachable step initial w ->
  forall i seed_id, drawn (at_ w i) = Some seed_id -> 1 <= seed_id <= 65535.
Proof.
  induction 1 as [| w1 w2 _ IH Hstep]; [discriminate |].
  intros j id.
  destruct Hstep as [w i e Hat | w i seed_id Hat Hfree | w i seed_id Hat Htaken
                    | w i seed_id Hat | w i seed_id ids Hat Hrem
                    | w i seed_id Hat | w i Hat];
    rewrite at_move; destruct (Nat.eqb_spec j i) as [-> | Hne];
    try apply IH; cbn [drawn]; try discriminate.
  - intros E. assert (Hid : id = randint 1 65535 e) by congruence.
    rewrite Hid. apply randint_range. lia.
  - intros E. injection E as <-. apply (IH i). now rewrite Hat.
  - intros E. injection E as <-. apply (IH i). now rewrite Hat.
Qed.

(** A thread gets from its test to its append only past a test that found
    its number absent from SEED_IDs. *)
Lemma append_follows_free_test (w w' : world) (i : nat) (seed_id : Z) :
  step w w' ->
  at_ w i = AtTest seed_id ->
  at_ w' i = AtAppend seed_id ->
  contains (SEED_IDs w) seed_id = false.
Proof.
  intros Hstep Hbefore Hafter.
  destruct Hstep as [w j e Hat | w j id Hat Hfree | w j id Hat Htaken
                    | w j id Hat | w j id ids Hat Hrem
                    | w j id Hat | w j Hat];
    rewrite at_move in Hafter; destruct (Nat.eqb_spec i j) as [-> | Hne];
    congruence.
Qed.

Lemma sound_reachable (w : world) :
  reachable serial_step initial w -> sound w.
Proof.
  induction 1 as [| w1 w2 _ IH Hstep]; [apply sound_initial |].
  eapply sound_step; [apply IH | exact Hstep].
Qed.

End SerialThreads.

(** What the list does achieve. Whatever the interleaving of the threads,
    the identifier of a session is a number of 1..65535, and a thread appends
    it only after a test that found it absent from SEED_IDs.  For threads
    whose loop of ping runs as one step (as it would under a lock, which the
    code does not take), in every world they reach: an identifier
    held by a session is in SEED_IDs; no two sessions hold the same
    identifier; the loop returns a number of 1..65535 that is not in SEED_IDs
    and that no session holds; and once a session has removed its
    identifier, the identifier is no longer in SEED_IDs and the loop returns
    it again when randint draws it. *)
Theorem identifiers_distinct_when_loop_is_one_step (w : Threads.world) :
  Threads.reachable Threads.serial_step Threads.initial w ->
  (forall w' i seed_id,
      Threads.reachable Threads.step Threads.initial w' ->
      Threads.at_ w' i = Threads.InSession seed_id ->
      1 <= seed_id <= 65535)
  /\ (forall w1 w2 i seed_id,
         Threads.step w1 w2 ->
         Threads.at_ w1 i = Threads.AtTest seed_id ->
         Threads.at_ w2 i = Threads.AtAppend seed_id ->
         contains (Threads.SEED_IDs w1) seed_id = false)
  /\ (forall i seed_id,
         Threads.at_ w i = Threads.InSession seed_id ->
         1 <= seed_id <= 65535
         /\ contains (Threads.SEED_IDs w) seed_id = true)
  /\ (forall i j, ~ Threads.clash w i j)
  /\ (forall entropy seed_id ids,
         allocate (Threads.SEED_IDs w) entropy = Some (seed_id, ids) ->
         1 <= seed_id <= 65535
         /\ contains (Threads.SEED_IDs w) seed_id = false
         /\ ids = Threads.SEED_IDs w ++ [seed_id]
         /\ forall j, Threads.at_ w j <> Threads.InSession seed_id)
  /\ (forall i seed_id,
         Threads.at_ w i = Threads.InSession seed_id ->
         exists ids,
           list_remove (Threads.SEED_IDs w) seed_id = Some ids
           /\ contains ids seed_id = false
           /\ forall e entropy,
               randint 1 65535 e = seed_id ->
               allocate ids (e :: entropy) = Some (seed_id, ids ++ [seed_id])).
Proof.
  intros Hreach.
  destruct (sound_reachable w Hreach) as (Hnd & Hin & Huniq).
  split; [| split; [| split; [| split; [| split]]]].
  - intros w' i seed_id Hreach' Hat.
    apply (drawn_in_range w' Hreach' i). now rewrite Hat.
  - intros w1 w2 i seed_id. apply append_follows_free_test.
  - intros i seed_id Hat. destruct (Hin _ _ Hat) as [Hid Hr].
    split; [exact Hr | now apply contains_true_iff].
  - intros i j [Hne (seed_id & Hi & Hj)]. apply Hne. eapply Huniq; eassumption.
  - intros entropy seed_id ids Halloc.
    destruct (allocate_some _ _ _ _ Halloc) as (Hr & Hfree & Hids).
    repeat split; try assumption; try lia.
    intros j Hat. destruct (Hin _ _ Hat) as [Hid _].
    apply contains_false_iff in Hfree. auto.
  - intros i seed_id Hat. destruct (Hin _ _ Hat) as [Hid _].
    destruct (list_remove_some _ _ Hid) as [ids Hrem].
    destruct (list_remove_NoDup _ _ _ Hnd Hrem) as [_ Hgone].
    apply contains_false_iff in Hgone.
    exists ids. split; [exact Hrem | split; [exact Hgone |]].
    intros e entropy <-. now apply allocate_free.
Qed.

Lemma identifiers_distinct_when_loop_is_one_step_witness :
  Threads.reachable Threads.serial_step Threads.initial two_sessions
  /\ Threads.at_ two_sessions 0 = Threads.InSession 7
  /\ Threads.at_ two_sessions 1 = Threads.InSession 8
  /\ (forall i j, ~ Threads.clash two_sessions i j)
  /\ exists ids,
      list_remove (Threads.SEED_IDs two_sessions) 7 = Some ids
      /\ contains ids 7 = false.
Proof.
  assert (Hreach :
            Threads.reachable Threads.serial_step Threads.initial two_sessions).
  { apply (Threads.reach_step _ _ one_session).
    - apply (Threads.reach_step _ _ Threads.initial);
        [apply Threads.reach_refl |].
      exact (Threads.serial_allocate Threads.initial 0 [6] 7 [7]
                                     eq_refl eq_refl).
    - exact (Threads.serial_allocate one_session 1 [6; 7] 8 [7; 8]
                                     eq_refl eq_refl). }
  split; [exact Hreach | split; [reflexivity | split; [reflexivity |]]].
  destruct (identifiers_distinct_when_loop_is_one_step two_sessions Hreach)
    as (_ & _ & _ & Hclash & _ & Hfree).
  split; [exact Hclash |].
  destruct (Hfree 0%nat 7 eq_refl) as (ids & Hrem & Hgone & _).
  exists ids. split; assumption.
Defined.

(** C9 does not hold of the code, against the purpose its own comments give
    the list (a seed ID unique per thread): ping tests and appends in two
    statements and takes no lock.  Two threads draw 7; each finds SEED_IDs
    empty before the other appends; both append.  The second append puts 7
    in a list that holds it already, and both sessions run at the same time
    with identifier 7. *)
Lemma identifiers_clash_when_threads_interleave :
  Threads.reachable Threads.step Threads.initial racing
  /\ Threads.clash racing 0 1
  /\ Threads.SEED_IDs racing = [7; 7].
Proof.
  split; [| split; [| reflexivity]].
  - unfold racing.
    set (w1 := Threads.move Threads.initial 0 (Threads.AtTest 7) []).
    set (w2 := Threads.move w1 1 (Threads.AtTest 7) []).
    set (w3 := Threads.move w2 0 (Threads.AtAppend 7) []).
    set (w4 := Threads.move w3 1 (Threads.AtAppend 7) []).
    set (w5 := Threads.move w4 0 (Threads.InSession 7) [7]).
    apply (Threads.reach_step _ _ w5);
      [| exact (Threads.step_append w5 1 7 eq_refl)].
    apply (Threads.reach_step _ _ w4);
      [| exact (Threads.step_append w4 0 7 eq_refl)].
    apply (Threads.reach_step _ _ w3);
      [| exact (Threads.step_test_free w3 1 7 eq_refl eq_refl)].
    apply (Threads.reach_step _ _ w2);
      [| exact (Threads.step_test_free w2 0 7 eq_refl eq_refl)].
    apply (Threads.reach_step _ _ w1);
      [| exact (Threads.step_draw w1 1 6 eq_refl)].
    apply (Threads.reach_step _ _ Threads.initial);
      [apply Threads.reach_refl
      | exact (Threads.step_draw Threads.initial 0 6 eq_refl)].
  - split; [discriminate |]. exists 7. split; reflexivity.
Qed.

(** * Further properties *)

(** ** Response.success and Response.error_message *)

(** X1. A response is successful exactly when it carries a message of type
    0 and code 0 (an Echo Reply), and exactly when it has no error message;
    a timed-out attempt never is. *)
Theorem response_success_iff_echo_reply (T : Type) (r : Response.t T) :
  (Response.success r = true
   <-> exists m, Response.message r = Some m
                 /\ icmp.message_type (packet m) = 0
                 /\ icmp.message_code (packet m) = 0)
  /\ (Response.success r = true <-> Response.error_message r = None)
  /\ (Response.message r = None ->
      Response.error_message r = Some "No response"%string).
Proof.
  unfold Response.success, Response.error_message.
  destruct (Response.message r) as [m |].
  - destruct (Z.eqb_spec (icmp.message_type (packet m)) 0) as [Hty | Hty];
      destruct (Z.eqb_spec (icmp.message_code (packet m)) 0) as [Hco | Hco];
      cbn [andb].
    + split; [split; [intros _; exists m; auto | reflexivity] |].
      split; [split; reflexivity | discriminate].
    + assert (Hno : ~ exists m0, Some m = Some m0
                                 /\ icmp.message_type (packet m0) = 0
                                 /\ icmp.message_code (packet m0) = 0)
        by (intros (m0 & E & _ & C); injection E as <-; contradiction).
      destruct (_ =? 3); [destruct (py_getitem _ _) |];
        (split; [split; [discriminate | tauto]
                | split; [split; discriminate | discriminate]]).
    + assert (Hno : ~ exists m0, Some m = Some m0
                                 /\ icmp.message_type (packet m0) = 0
                                 /\ icmp.message_code (packet m0) = 0)
        by (intros (m0 & E & C & _); injection E as <-; contradiction).
      destruct (_ =? 3); [destruct (py_getitem _ _) |];
        (split; [split; [discriminate | tauto]
                | split; [split; discriminate | discriminate]]).
    + assert (Hno : ~ exists m0, Some m = Some m0
                                 /\ icmp.message_type (packet m0) = 0
                                 /\ icmp.message_code (packet m0) = 0)
        by (intros (m0 & E & C & _); injection E as <-; contradiction).
      destruct (_ =? 3); [destruct (py_getitem _ _) |];
        (split; [split; [discriminate | tauto]
                | split; [split; discriminate | discriminate]]).
  - split; [split; [discriminate | intros (m & E & _); discriminate] |].
    split; [split; discriminate | reflexivity].
Qed.

Lemma py_getitem_nonnegative (A : Type) (l : list A) (i : Z) (d : A) :
  0 <= i ->
  match py_getitem l i with
  | Some x => x
  | None => d
  end = nth (Z.to_nat i) l d.
Proof.
  intros Hi. unfold py_getitem.
  destruct (Z.leb_spec 0 i) as [_ | C]; [| lia].
  destruct (Z.ltb_spec i (Z.of_nat (length l))) as [Hlt | Hge]; cbn [andb].
  - destruct (nth_error l (Z.to_nat i)) as [x |] eqn:E.
    + symmetry. now apply nth_error_nth.
    + apply nth_error_None in E. lia.
  - destruct (Z.ltb_spec i 0) as [C | _]; [lia |].
    rewrite andb_false_r. symmetry. apply nth_overflow. lia.
Qed.

(** X2. For a Destination Unreachable message (type 3) with a code that is
    not negative, the error message is the entry of the table of sixteen
    texts at that code, and "Unreachable" from code 16 on: the lookup never
    fails, and the response is not successful. *)
Theorem error_message_of_unreachable (T : Type) (r : Response.t T)
        (m : Message) :
  Response.message r = Some m ->
  icmp.message_type (packet m) = 3 ->
  0 <= icmp.message_code (packet m) ->
  Response.error_message r
  = Some (nth (Z.to_nat (icmp.message_code (packet m)))
              Response.unreachable_messages "Unreachable"%string)
  /\ (16 <= icmp.message_code (packet m) ->
      Response.error_message r = Some "Unreachable"%string)
  /\ Response.success r = false.
Proof.
  intros Hm Hty Hcode.
  assert (Herr :
            Response.error_message r
            = Some (nth (Z.to_nat (icmp.message_code (packet m)))
                        Response.unreachable_messages "Unreachable"%string)).
  { unfold Response.error_message. rewrite Hm, Hty. cbn [Z.eqb andb].
    rewrite <- (py_getitem_nonnegative _ Response.unreachable_messages
                                       _ "Unreachable"%string Hcode).
    now destruct (py_getitem _ _). }
  split; [exact Herr | split].
  - intros Hbig. rewrite Herr. f_equal. apply nth_overflow.
    change (length Response.unreachable_messages) with 16%nat. lia.
  - unfold Response.success. now rewrite Herr.
Qed.

Lemma error_message_of_unreachable_witness :
  Response.message (Response.Response (Some (unreachable 1)) 1%Q)
  = Some (unreachable 1)
  /\ icmp.message_type (packet (unreachable 1)) = 3
  /\ 0 <= icmp.message_code (packet (unreachable 1))
  /\ Response.error_message (Response.Response (Some (unreachable 1)) 1%Q)
     = Some "Host Unreachable"%string.
Proof.
  split; [reflexivity | split; [reflexivity | split; [discriminate |]]].
  apply (error_message_of_unreachable
           Q (Response.Response (Some (unreachable 1)) 1%Q) (unreachable 1)
           eq_refl eq_refl).
  discriminate.
Defined.

(** ** ResponseList.success *)

Lemma count_true_successes (T : Type) (l : list (Response.t T)) :
  ResponseList.count_true (map Response.success l) = successes l.
Proof.
  unfold ResponseList.count_true, successes. f_equal.
  induction l as [| r l IH]; [reflexivity |].
  cbn [map filter]. destruct (Response.success r); cbn [length]; now rewrite IH.
Qed.

Lemma successes_bounds (T : Type) (l : list (Response.t T)) :
  0 <= successes l <= Z.of_nat (length l).
Proof.
  unfold successes. pose proof (filter_length_le Response.success l). lia.
Qed.

Lemma successes_all (T : Type) (l : list (Response.t T)) :
  successes l = Z.of_nat (length l)
  <-> forall r, In r l -> Response.success r = true.
Proof.
  unfold successes. induction l as [| r l IH]; [easy |].
  pose proof (filter_length_le Response.success l) as Hle.
  cbn [filter In]. destruct (Response.success r) eqn:E; cbn [length]; split.
  - intros Hlen x [<- | Hx]; [exact E |]. apply IH; [lia | exact Hx].
  - intros Hall. assert (Hl : forall x, In x l -> Response.success x = true)
      by auto. apply IH in Hl. lia.
  - lia.
  - intros Hall. specialize (Hall r (or_introl eq_refl)). congruence.
Qed.

Lemma successes_some (T : Type) (l : list (Response.t T)) :
  0 < successes l <-> exists r, In r l /\ Response.success r = true.
Proof.
  unfold successes. induction l as [| r l IH].
  - cbn. split; [lia | intros (r & [] & _)].
  - cbn [filter In]. destruct (Response.success r) eqn:E; cbn [length]; split.
    + intros _. exists r. auto.
    + lia.
    + intros Hpos. apply IH in Hpos as (x & Hx & Hs). exists x. auto.
    + intros (x & [<- | Hx] & Hs); [congruence |]. apply IH. eauto.
Qed.

Lemma ratio_above_half (c n : Z) :
  0 < n ->
  negb (Qle_bool (inject_Z c / inject_Z n) (inject_Z 1 / inject_Z 2)) = true
  <-> n < 2 * c.
Proof.
  intros Hn.
  assert (Hpos : (0 < inject_Z n)%Q)
    by (change 0%Q with (inject_Z 0); now rewrite <- Zlt_Qlt).
  assert (Hne : ~ (inject_Z n == 0)%Q) by lra.
  rewrite negb_true_iff, <- not_true_iff_false, Qle_bool_iff.
  rewrite <- (Qmult_le_r _ _ _ Hpos).
  unfold Qdiv at 1. rewrite <- Qmult_assoc, (Qmult_comm (/ inject_Z n)).
  rewrite Qmult_inv_r by exact Hne.
  assert (Hiff : (inject_Z c * 1 <= inject_Z 1 / inject_Z 2 * inject_Z n)%Q
                 <-> 2 * c <= n).
  { rewrite (Zle_Qle (2 * c) n), inject_Z_mult.
    change (inject_Z 1 / inject_Z 2)%Q with (1 # 2)%Q.
    change (inject_Z 2) with 2%Q. split; intros; lra. }
  rewrite Hiff. lia.
Qed.

Lemma success_one_iff (T : Type) (N : Number T) (self : ResponseList.t T) :
  ResponseList.success self One = Returned true
  <-> exists r, In r (ResponseList._responses self)
                /\ Response.success r = true.
Proof.
  cbn [ResponseList.success]. split.
  - intros E. injection E as E. apply existsb_exists in E as (b & Hb & ->).
    apply in_map_iff in Hb as (r & Hr & Hin). eauto.
  - intros (r & Hin & Hr). f_equal. apply existsb_exists. exists true.
    split; [| reflexivity]. apply in_map_iff. eauto.
Qed.

Lemma success_all_iff (T : Type) (N : Number T) (self : ResponseList.t T) :
  ResponseList.success self All = Returned true
  <-> forall r, In r (ResponseList._responses self) ->
                Response.success r = true.
Proof.
  cbn [ResponseList.success]. split.
  - intros E r Hin. injection E as E. apply negb_true_iff in E.
    destruct (Response.success r) eqn:Hr; [reflexivity |].
    assert (C : existsb negb
                        (map Response.success (ResponseList._responses self))
                = true).
    { apply existsb_exists. exists false. split; [| reflexivity].
      apply in_map_iff. eauto. }
    congruence.
  - intros Hall. f_equal. apply negb_true_iff.
    destruct (existsb negb _) eqn:E; [| reflexivity].
    apply existsb_exists in E as (b & Hb & Hneg).
    apply in_map_iff in Hb as (r & Hr & Hin). rewrite (Hall r Hin) in Hr.
    subst b. discriminate.
Qed.

Lemma success_most_spec (self : ResponseList.t Q) :
  ResponseList._responses self <> [] ->
  exists b,
    ResponseList.success self Most = Returned b
    /\ (b = true
        <-> Z.of_nat (length (ResponseList._responses self))
            < 2 * successes (ResponseList._responses self)).
Proof.
  intros Hne. cbn [ResponseList.success].
  rewrite length_map, count_true_successes.
  destruct (Z.eqb_spec (Z.of_nat (length (ResponseList._responses self))) 0)
    as [E | E].
  - destruct (ResponseList._responses self); [congruence | discriminate].
  - eexists. split; [reflexivity |].
    cbn [num_lt num_div of_int Q_Number]. apply ratio_above_half. lia.
Qed.

(** X3. Whatever the arithmetic, success(One) holds exactly when some result
    of the series is successful, and success(All) exactly when every result
    is; neither raises. *)
Theorem success_one_and_all (T : Type) (N : Number T)
        (self : ResponseList.t T) :
  (ResponseList.success self One = Returned true
   <-> exists r, In r (ResponseList._responses self)
                 /\ Response.success r = true)
  /\ (ResponseList.success self All = Returned true
      <-> forall r, In r (ResponseList._responses self) ->
                    Response.success r = true)
  /\ (exists b, ResponseList.success self One = Returned b)
  /\ (exists b, ResponseList.success self All = Returned b).
Proof.
  split; [apply success_one_iff | split; [apply success_all_iff |]].
  cbn [ResponseList.success]. split; eauto.
Qed.

(** X4. In exact arithmetic, on a series that is not empty success(Most)
    does not raise, and holds exactly when more than half of the results
    are successful: twice the successes exceed the count. *)
Theorem success_most_iff_majority (self : ResponseList.t Q) :
  ResponseList._responses self <> [] ->
  exists b,
    ResponseList.success self Most = Returned b
    /\ (b = true
        <-> Z.of_nat (length (ResponseList._responses self))
            < 2 * successes (ResponseList._responses self)).
Proof. exact (success_most_spec self). Qed.

Lemma success_most_iff_majority_witness :
  let self := ResponseList.init [replied 1%Q; timed_out 2%Q; replied 1%Q] in
  ResponseList._responses self <> []
  /\ ResponseList.success self Most = Returned true.
Proof.
  cbv zeta. split; [discriminate |].
  destruct (success_most_iff_majority
              (ResponseList.init [replied 1%Q; timed_out 2%Q; replied 1%Q]))
    as (b & -> & Hb); [discriminate |].
  f_equal. apply Hb. reflexivity.
Defined.

(** X5. In exact arithmetic, on a series that is not empty the thresholds
    are ordered: success(All) implies success(Most), and success(Most)
    implies success(One). *)
Theorem success_thresholds_ordered (self : ResponseList.t Q) :
  ResponseList._responses self <> [] ->
  (ResponseList.success self All = Returned true ->
   ResponseList.success self Most = Returned true)
  /\ (ResponseList.success self Most = Returned true ->
      ResponseList.success self One = Returned true).
Proof.
  intros Hne.
  destruct (success_most_spec self Hne) as (b & Hmost & Hb).
  pose proof (successes_bounds Q (ResponseList._responses self)) as Hbound.
  assert (Hlen : 0 < Z.of_nat (length (ResponseList._responses self)))
    by (destruct (ResponseList._responses self);
        [congruence | cbn [length]; lia]).
  split.
  - intros E. pose proof (proj1 (success_all_iff Q _ self) E) as Hevery.
    apply successes_all in Hevery. rewrite Hmost. f_equal. apply Hb. lia.
  - intros E. rewrite Hmost in E. injection E as ->.
    apply (success_one_iff Q _ self), successes_some.
    assert (Hmaj := proj1 Hb eq_refl). lia.
Qed.

Lemma success_thresholds_ordered_witness :
  let self := ResponseList.init [replied 1%Q; replied 2%Q] in
  ResponseList._responses self <> []
  /\ ResponseList.success self Most = Returned true
  /\ ResponseList.success self One = Returned true.
Proof.
  cbv zeta. split; [discriminate |].
  destruct (success_thresholds_ordered
              (ResponseList.init [replied 1%Q; replied 2%Q]))
    as [Hmost Hone]; [discriminate |].
  assert (H : ResponseList.success
                (ResponseList.init [replied 1%Q; replied 2%Q]) Most
              = Returned true) by (apply Hmost; reflexivity).
  split; [exact H | exact (Hone H)].
Defined.

(** ** ResponseList.append: order, loss fraction, reuse *)

(** X6. Whatever the arithmetic, appending keeps the earlier results in
    place and puts the new ones after them in the order given, the length
    growing by their number; a series built from an initial set holds
    exactly that set. *)
Theorem appended_results_keep_their_order
        (T : Type) (N : Number T) (self : ResponseList.t T)
        (l : list (Response.t T)) :
  ResponseList._responses (fold_left ResponseList.append l self)
  = ResponseList._responses self ++ l
  /\ ResponseList.len (fold_left ResponseList.append l self)
     = ResponseList.len self + Z.of_nat (length l)
  /\ ResponseList._responses (ResponseList.init l) = l
  /\ ResponseList.len (ResponseList.init l) = Z.of_nat (length l).
Proof.
  unfold ResponseList.len, ResponseList.init.
  rewrite !fold_append_responses, length_app. cbn [ResponseList._responses app length].
  repeat split; lia.
Qed.

Lemma append_packets_lost (self : ResponseList.t Q) (value : Response.t Q) :
  ResponseList.packets_lost (ResponseList.append self value)
  = (ResponseList.packets_lost self
     + (if Response.success value then 0
        else 1 - ResponseList.packets_lost self)
       / inject_Z (ResponseList.len self + 1))%Q.
Proof.
  cbn [ResponseList.append ResponseList.packets_lost].
  unfold ResponseList.len. rewrite length_snoc_Z. reflexivity.
Qed.

Lemma len_positive_Q (self : ResponseList.t Q) :
  (1 <= inject_Z (ResponseList.len self + 1))%Q.
Proof.
  change 1%Q with (inject_Z 1). rewrite <- Zle_Qle.
  unfold ResponseList.len. lia.
Qed.

(** One append keeps the loss fraction within 0..1, leaves it as it is on a
    success and makes it positive on a failure. *)
Lemma append_packets_lost_bounds (self : ResponseList.t Q)
      (value : Response.t Q) :
  (0 <= ResponseList.packets_lost self <= 1)%Q ->
  (0 <= ResponseList.packets_lost (ResponseList.append self value) <= 1)%Q
  /\ (Response.success value = true ->
      (ResponseList.packets_lost (ResponseList.append self value)
       == ResponseList.packets_lost self)%Q)
  /\ (Response.success value = false ->
      (0 < ResponseList.packets_lost (ResponseList.append self value))%Q).
Proof.
  intros [Hlo Hhi]. rewrite append_packets_lost.
  pose proof (len_positive_Q self) as Hn.
  set (n := inject_Z (ResponseList.len self + 1)) in *.
  set (p := ResponseList.packets_lost self) in *.
  assert (Hn0 : (0 < n)%Q) by lra.
  destruct (Response.success value).
  - assert (E : (p + 0 / n == p)%Q) by (field; lra).
    split; [rewrite E; lra | split; [intros _; exact E | discriminate]].
  - assert (H0 : (0 <= (1 - p) / n)%Q)
      by (apply Qle_shift_div_l; [exact Hn0 | lra]).
    assert (H1 : ((1 - p) / n <= 1 - p)%Q).
    { apply Qle_shift_div_r; [exact Hn0 |].
      assert (0 <= (1 - p) * (n - 1))%Q
        by (apply Qmult_le_0_compat; lra).
      lra. }
    split; [lra | split; [discriminate | intros _]].
    destruct (Qlt_le_dec p 1) as [Hlt | Hge]; [| lra].
    assert (0 < (1 - p) / n)%Q
      by (apply Qlt_shift_div_l; [exact Hn0 | lra]).
    lra.
Qed.

Lemma packets_lost_of_series (l : list (Response.t Q)) :
  (0 <= ResponseList.packets_lost (ResponseList.init l) <= 1)%Q
  /\ ((ResponseList.packets_lost (ResponseList.init l) == 0)%Q
      <-> forall r, In r l -> Response.success r = true).
Proof.
  induction l as [| value l IH] using rev_ind.
  - change (ResponseList.packets_lost (ResponseList.init [])) with 0%Q.
    split; [lra |]. split; [intros _ r [] | reflexivity].
  - unfold ResponseList.init in *. rewrite fold_append_snoc.
    destruct IH as [Hb Hz].
    destruct (append_packets_lost_bounds _ value Hb) as (Hb' & Hs & Hf).
    split; [exact Hb' |]. destruct (Response.success value) eqn:E.
    + rewrite (Hs eq_refl), Hz. split.
      * intros Hall r Hin. apply in_app_or in Hin as [Hin | [<- | []]]; auto.
      * intros Hall r Hin. apply Hall, in_or_app. now left.
    + specialize (Hf eq_refl). split.
      * intros C. lra.
      * intros Hall.
        assert (Hin : In value (l ++ [value]))
          by (apply in_or_app; right; now left).
        specialize (Hall value Hin). congruence.
Qed.

(** X7. In exact arithmetic the loss fraction of a series lies between 0 and
    1, and it is 0 exactly when every result is successful. *)
Theorem packets_lost_in_unit_interval (l : list (Response.t Q)) :
  (0 <= ResponseList.packets_lost (ResponseList.init l) <= 1)%Q
  /\ ((ResponseList.packets_lost (ResponseList.init l) == 0)%Q
      <-> forall r, In r l -> Response.success r = true).
Proof. exact (packets_lost_of_series l). Qed.

Lemma packets_lost_after_successes (ss : list (Response.t Q)) :
  forall self : ResponseList.t Q,
    (forall r, In r ss -> Response.success r = true) ->
    (ResponseList.packets_lost (fold_left ResponseList.append ss self)
     == ResponseList.packets_lost self)%Q.
Proof.
  induction ss as [| r ss IH]; intros self Hall; [reflexivity |].
  cbn [fold_left]. rewrite IH by (intros; apply Hall; now right).
  rewrite append_packets_lost, (Hall r (or_introl eq_refl)).
  pose proof (len_positive_Q self). field. lra.
Qed.

Lemma packets_lost_after_failures (fs : list (Response.t Q)) :
  forall (self : ResponseList.t Q) (k : Z),
    (forall r, In r fs -> Response.success r = false) ->
    (ResponseList.packets_lost self * inject_Z (ResponseList.len self)
     == inject_Z k)%Q ->
    (ResponseList.packets_lost (fold_left ResponseList.append fs self)
     * inject_Z (ResponseList.len self + Z.of_nat (length fs))
     == inject_Z (k + Z.of_nat (length fs)))%Q.
Proof.
  induction fs as [| r fs IH]; intros self k Hall Hk.
  - cbn [fold_left length]. now rewrite !Z.add_0_r.
  - cbn [fold_left length].
    replace (ResponseList.len self + Z.of_nat (S (length fs)))
      with (ResponseList.len (ResponseList.append self r)
            + Z.of_nat (length fs))
      by (unfold ResponseList.len; rewrite append_length; lia).
    replace (k + Z.of_nat (S (length fs)))
      with (k + 1 + Z.of_nat (length fs)) by lia.
    apply IH; [intros; apply Hall; now right |].
    rewrite append_packets_lost, (Hall r (or_introl eq_refl)).
    replace (ResponseList.len (ResponseList.append self r))
      with (ResponseList.len self + 1)
      by (unfold ResponseList.len; rewrite append_length; lia).
    pose proof (len_positive_Q self) as Hn.
    rewrite !inject_Z_plus in *. change (inject_Z 1) with 1%Q in *.
    set (n := inject_Z (ResponseList.len self)) in *.
    set (p := ResponseList.packets_lost self) in *.
    rewrite <- Hk. field. lra.
Qed.

Lemma failures_of_app (ss fs : list (Response.t Q)) :
  (forall r, In r ss -> Response.success r = true) ->
  (forall r, In r fs -> Response.success r = false) ->
  failures (ss ++ fs) = Z.of_nat (length fs).
Proof.
  intros Hss Hfs. unfold failures. f_equal. rewrite filter_app, length_app.
  assert (Hs : filter (fun r => negb (Response.success r)) ss = []).
  { clear Hfs. induction ss as [| r ss IH]; [reflexivity |]. cbn [filter].
    rewrite (Hss r (or_introl eq_refl)). cbn [negb].
    apply IH. intros; apply Hss; now right. }
  assert (Hf : filter (fun r => negb (Response.success r)) fs = fs).
  { clear Hss. induction fs as [| r fs IH]; [reflexivity |]. cbn [filter].
    rewrite (Hfs r (or_introl eq_refl)). cbn [negb]. f_equal.
    apply IH. intros; apply Hfs; now right. }
  now rewrite Hs, Hf.
Qed.

(** X8. In exact arithmetic, for a series in which no success follows a
    failure (successes first, then failures), the loss fraction is the
    number of failures divided by the number of results. *)
Theorem packets_lost_when_failures_follow_successes
        (ss fs : list (Response.t Q)) :
  (forall r, In r ss -> Response.success r = true) ->
  (forall r, In r fs -> Response.success r = false) ->
  ss ++ fs <> [] ->
  (ResponseList.packets_lost (ResponseList.init (ss ++ fs))
   == loss_ratio (ss ++ fs))%Q.
Proof.
  intros Hss Hfs Hne. unfold loss_ratio.
  rewrite (failures_of_app ss fs Hss Hfs).
  pose proof (length_pos_Q _ (ss ++ fs) Hne) as Hpos.
  unfold ResponseList.init. rewrite fold_left_app.
  set (fresh := {| ResponseList._responses := [] |}).
  set (s := fold_left ResponseList.append ss fresh).
  assert (Hs0 : (ResponseList.packets_lost s == 0)%Q)
    by (subst s; rewrite (packets_lost_after_successes ss fresh Hss);
        reflexivity).
  assert (Hlen : ResponseList.len s = Z.of_nat (length ss))
    by (subst s; unfold ResponseList.len;
        rewrite fold_append_responses; reflexivity).
  assert (Hk : (ResponseList.packets_lost s * inject_Z (ResponseList.len s)
                == inject_Z 0)%Q)
    by (rewrite Hs0; change (inject_Z 0) with 0%Q; ring).
  pose proof (packets_lost_after_failures fs s 0 Hfs Hk) as H.
  rewrite Hlen, Z.add_0_l, <- Nat2Z.inj_add, <- length_app in H.
  rewrite <- H. field. lra.
Qed.

Lemma packets_lost_when_failures_follow_successes_witness :
  let ss := [replied 1%Q; replied 2%Q] in
  let fs := [timed_out 3%Q; timed_out 3%Q] in
  (forall r, In r ss -> Response.success r = true)
  /\ (forall r, In r fs -> Response.success r = false)
  /\ ss ++ fs <> []
  /\ (ResponseList.packets_lost (ResponseList.init (ss ++ fs))
      == loss_ratio (ss ++ fs))%Q.
Proof.
  cbv zeta.
  assert (Hss : forall r, In r [replied 1%Q; replied 2%Q] ->
                          Response.success r = true)
    by (intros r [<- | [<- | []]]; reflexivity).
  assert (Hfs : forall r, In r [timed_out 3%Q; timed_out 3%Q] ->
                          Response.success r = false)
    by (intros r [<- | [<- | []]]; reflexivity).
  split; [exact Hss | split; [exact Hfs | split; [discriminate |]]].
  apply (packets_lost_when_failures_follow_successes
           [replied 1%Q; replied 2%Q] [timed_out 3%Q; timed_out 3%Q]
           Hss Hfs).
  discriminate.
Defined.

Lemma append_same_times (T : Type) (N : Number T) (s t : ResponseList.t T)
      (value : Response.t T) :
  same_times s t ->
  same_times (ResponseList.append s value) (ResponseList.append t value).
Proof.
  intros (Hr & Ha & Hmin & Hmax). unfold same_times.
  cbn [ResponseList.append ResponseList._responses ResponseList.rtt_avg
         ResponseList.rtt_min ResponseList.rtt_max].
  rewrite Hr, Ha, Hmin, Hmax. repeat split.
Qed.

Lemma fold_append_same_times (T : Type) (N : Number T)
      (l : list (Response.t T)) :
  forall s t : ResponseList.t T,
    same_times s t ->
    same_times (fold_left ResponseList.append l s)
               (fold_left ResponseList.append l t).
Proof.
  induction l as [| value l IH]; intros s t Hst; [exact Hst |].
  cbn [fold_left]. apply IH, append_same_times, Hst.
Qed.

Lemma append_same_statistics (T : Type) (N : Number T)
      (s t : ResponseList.t T) (value : Response.t T) :
  same_statistics s t ->
  same_statistics (ResponseList.append s value) (ResponseList.append t value).
Proof.
  intros (Hr & Ha & Hmin & Hmax & Hp). unfold same_statistics.
  cbn [ResponseList.append ResponseList._responses ResponseList.rtt_avg
         ResponseList.rtt_min ResponseList.rtt_max ResponseList.packets_lost].
  rewrite Hr, Ha, Hmin, Hmax, Hp. repeat split.
Qed.

Lemma fold_append_same_statistics (T : Type) (N : Number T)
      (l : list (Response.t T)) :
  forall s t : ResponseList.t T,
    same_statistics s t ->
    same_statistics (fold_left ResponseList.append l s)
                    (fold_left ResponseList.append l t).
Proof.
  induction l as [| value l IH]; intros s t Hst; [exact Hst |].
  cbn [fold_left]. apply IH, append_same_statistics, Hst.
Qed.

(** X9. Whatever the arithmetic, once a result is appended to a series whose
    list is empty (a new one, or one that clear emptied), rtt_avg, rtt_min
    and rtt_max are those of a new series given the same results: what the
    three held before is forgotten. *)
Theorem round_trip_times_forget_the_past
        (T : Type) (N : Number T) (self : ResponseList.t T)
        (l : list (Response.t T)) :
  ResponseList._responses self = [] ->
  l <> [] ->
  same_times (fold_left ResponseList.append l self) (ResponseList.init l).
Proof.
  intros Hself Hl. destruct l as [| value l]; [congruence |].
  unfold ResponseList.init. cbn [fold_left].
  apply fold_append_same_times. unfold same_times.
  cbn [ResponseList.append ResponseList._responses ResponseList.rtt_avg
         ResponseList.rtt_min ResponseList.rtt_max].
  rewrite Hself. repeat split.
Qed.

Lemma round_trip_times_forget_the_past_witness :
  let used := ResponseList.clear
                (ResponseList.init [timed_out tenth; timed_out tenth]) in
  let l := [replied ms10; replied ms30] in
  ResponseList._responses used = []
  /\ l <> []
  /\ same_times (fold_left ResponseList.append l used) (ResponseList.init l).
Proof.
  cbv zeta. split; [reflexivity | split; [discriminate |]].
  apply (round_trip_times_forget_the_past
           float float_Number
           (ResponseList.clear
              (ResponseList.init [timed_out tenth; timed_out tenth]))
           [replied ms10; replied ms30]);
    [reflexivity | discriminate].
Defined.

Lemma packets_lost_one_stays (l : list (Response.t Q)) :
  forall self : ResponseList.t Q,
    (ResponseList.packets_lost self == 1)%Q ->
    (ResponseList.packets_lost (fold_left ResponseList.append l self) == 1)%Q.
Proof.
  induction l as [| value l IH]; intros self Hone; [exact Hone |].
  cbn [fold_left]. apply IH. rewrite append_packets_lost.
  pose proof (len_positive_Q self).
  destruct (Response.success value); rewrite Hone; field; lra.
Qed.

(** X10. clear empties the list and nothing else: the loss fraction of the
    earlier results stays, and appends go on from it.  In exact arithmetic,
    a series cleared after only failures keeps a loss fraction of 1
    whatever is appended afterwards. *)
Theorem clear_keeps_the_loss_fraction
        (self : ResponseList.t Q) (l : list (Response.t Q)) :
  (ResponseList.packets_lost self == 1)%Q ->
  ResponseList._responses (ResponseList.clear self) = []
  /\ ResponseList.packets_lost (ResponseList.clear self)
     = ResponseList.packets_lost self
  /\ (ResponseList.packets_lost
        (fold_left ResponseList.append l (ResponseList.clear self)) == 1)%Q.
Proof.
  intros Hone. split; [reflexivity | split; [reflexivity |]].
  now apply packets_lost_one_stays.
Qed.

Lemma clear_keeps_the_loss_fraction_witness :
  let used := ResponseList.init [timed_out 2%Q; timed_out 2%Q] in
  (ResponseList.packets_lost used == 1)%Q
  /\ (ResponseList.packets_lost
        (fold_left ResponseList.append [replied 1%Q; replied 1%Q]
                   (ResponseList.clear used)) == 1)%Q.
Proof.
  cbv zeta.
  assert (Hone : (ResponseList.packets_lost
                    (ResponseList.init [timed_out 2%Q; timed_out 2%Q])
                  == 1)%Q) by reflexivity.
  split; [exact Hone |].
  apply (clear_keeps_the_loss_fraction
           (ResponseList.init [timed_out 2%Q; timed_out 2%Q])
           [replied 1%Q; replied 1%Q] Hone).
Defined.

(** ** listen_for, on any traffic *)

Section ListenForSound.
Context {T : Type} `{Number T}.
Variable unpack : bytes -> option icmp.ICMP.
Variables (packet_id : Z) (timeout : T) (payload_pattern : option bytes).

(** Whatever the socket delivers, a response of the loop is a timeout with
    elapsed time [timeout], or a delivery that unpacks to a packet passing
    the test, with elapsed time [timeout] minus what the delivery left; and
    the deliveries handed back are the end of those given. *)
Lemma listen_loop_sound (socket : list (Communicator.received T)) :
  forall time_left r rest,
    Communicator.listen_loop unpack packet_id timeout payload_pattern
                             time_left socket
    = (Returned r, rest) ->
    (exists used, socket = used ++ rest)
    /\ (r = Response.Response None timeout
        \/ exists raw_packet source_socket time_left' response,
            In (Communicator.Packet raw_packet source_socket time_left')
               socket
            /\ raw_packet <> []
            /\ unpack raw_packet = Some response
            /\ Communicator.reply_matches packet_id payload_pattern response
               = true
            /\ r = Response.Response
                     (Some {| target := ""; packet := response;
                              source := source_socket |})
                     (timeout - time_left')%py).
Proof.
  induction socket as [| ev socket IH]; intros time_left r rest;
    cbn [Communicator.listen_loop].
  - destruct (_ >? _)%py; [discriminate |].
    intros E. injection E as <- <-. split; [exists []; reflexivity | now left].
  - destruct (_ >? _)%py.
    + destruct ev as [raw src tl |]; [| discriminate].
      assert (Hrec :
                Communicator.listen_loop unpack packet_id timeout
                                         payload_pattern tl socket
                = (Returned r, rest) ->
                (exists used, Communicator.Packet raw src tl :: socket
                              = used ++ rest)
                /\ (r = Response.Response None timeout
                    \/ exists raw_packet source_socket time_left' response,
                        In (Communicator.Packet raw_packet source_socket
                                                time_left')
                           (Communicator.Packet raw src tl :: socket)
                        /\ raw_packet <> []
                        /\ unpack raw_packet = Some response
                        /\ Communicator.reply_matches
                             packet_id payload_pattern response = true
                        /\ r = Response.Response
                                 (Some {| target := ""; packet := response;
                                          source := source_socket |})
                                 (timeout - time_left')%py)).
      { intros E. destruct (IH _ _ _ E) as [[used ->] Hr]. split.
        - exists (Communicator.Packet raw src tl :: used). reflexivity.
        - destruct Hr as [-> | (raw' & src' & tl' & resp & Hin & Hrest)];
            [now left | right].
          exists raw', src', tl', resp. split; [now right | exact Hrest]. }
      destruct raw as [| b raw]; [exact Hrec |].
      destruct (unpack (b :: raw)) as [response |] eqn:Hunpack;
        [| discriminate].
      destruct (Communicator.reply_matches _ _ _) eqn:Hmatch; [| exact Hrec].
      intros E. injection E as <- <-. split.
      * exists [Communicator.Packet (b :: raw) src tl]. reflexivity.
      * right. exists (b :: raw), src, tl, response.
        repeat split; [now left | discriminate | exact Hunpack | exact Hmatch].
    + intros E. injection E as <- <-.
      split; [exists []; reflexivity | now left].
Qed.

End ListenForSound.

(** X11. Whatever the socket delivers, a response that listen_for returns
    is either a timeout, with no message and the whole timeout as elapsed
    time, or carries a packet that the socket delivered and that has the
    identifier asked for, a type other than Echo Request and, if a payload
    is to be matched, that very payload, with the empty string as target
    and the timeout minus the budget left as elapsed time.  The calls of
    receive not made stay with the socket. *)
Theorem listen_for_returns_only_matching_replies
        (T : Type) (N : Number T) (unpack : bytes -> option icmp.ICMP)
        (socket : list (Communicator.received T)) (packet_id : Z)
        (timeout : T) (payload_pattern : option bytes)
        (r : Response.t T) (rest : list (Communicator.received T)) :
  Communicator.listen_for unpack socket packet_id timeout payload_pattern
  = (Returned r, rest) ->
  (exists used, socket = used ++ rest)
  /\ (r = Response.Response None timeout
      \/ exists raw_packet source_socket time_left response,
          In (Communicator.Packet raw_packet source_socket time_left) socket
          /\ unpack raw_packet = Some response
          /\ icmp.id response = packet_id
          /\ icmp.message_type response <> icmp.EchoRequest_type_id
          /\ match payload_pattern with
             | None => True
             | Some sent => icmp.payload response = sent
             end
          /\ r = Response.Response
                   (Some {| target := ""; packet := response;
                            source := source_socket |})
                   (num_sub timeout time_left)).
Proof.
  unfold Communicator.listen_for. intros E.
  destruct (listen_loop_sound unpack packet_id timeout payload_pattern
                              socket timeout r rest E) as [Hused Hr].
  split; [exact Hused |].
  destruct Hr as [-> | (raw & src & tl & resp & Hin & _ & Hun & Hm & ->)];
    [now left | right].
  apply reply_matches_iff in Hm as (Hid & Hty & Hpay).
  exists raw, src, tl, resp. repeat split; assumption.
Qed.

Lemma listen_for_returns_only_matching_replies_witness :
  let socket :=
    [Communicator.Packet stray_bytes "10.0.0.9" (3 # 2)%Q;
     Communicator.Packet reply_bytes "10.0.0.1" (1 # 2)%Q;
     Communicator.Packet stray_bytes "10.0.0.9" (1 # 4)%Q] in
  exists r,
    Communicator.listen_for decode socket 7 2%Q (Some [x61])
    = (Returned r, [Communicator.Packet stray_bytes "10.0.0.9" (1 # 4)%Q])
    /\ (exists used,
           socket
           = used ++ [Communicator.Packet stray_bytes "10.0.0.9" (1 # 4)%Q]).
Proof.
  cbv zeta. eexists. split; [reflexivity |].
  apply (listen_for_returns_only_matching_replies
           Q Q_Number decode
           [Communicator.Packet stray_bytes "10.0.0.9" (3 # 2)%Q;
            Communicator.Packet reply_bytes "10.0.0.1" (1 # 2)%Q;
            Communicator.Packet stray_bytes "10.0.0.9" (1 # 4)%Q]
           7 2%Q (Some [x61]) _ _ eq_refl).
Defined.

(** ** Sequence numbers of a session *)

Lemma increase_seq_as_remainder (s : Z) :
  1 <= s <= 65535 -> Communicator.increase_seq s = 1 + s mod 65535.
Proof.
  intros Hs. unfold Communicator.increase_seq.
  destruct (Z.eq_dec s 65535) as [-> | Hne]; [reflexivity |].
  rewrite Z.mod_small by lia.
  destruct (s + 1 >? 65535) eqn:E; [| lia].
  apply Z.gtb_lt in E. lia.
Qed.

Lemma iterated_increase_seq (k : nat) :
  Nat.iter k Communicator.increase_seq 1 = 1 + Z.of_nat k mod 65535.
Proof.
  induction k as [| k IH]; [reflexivity |].
  rewrite Nat.iter_succ, IH.
  pose proof (Z.mod_pos_bound (Z.of_nat k) 65535 eq_refl) as Hb.
  rewrite increase_seq_as_remainder by lia.
  rewrite Zplus_mod_idemp_r. f_equal. f_equal. lia.
Qed.

(** X12. Starting from 1, as run does, the sequence number after k increases
    is 1 + (k mod 65535): it runs through 1..65535 in order, is never 0,
    and is 1 again after 65535 increases. *)
Theorem sequence_number_after_k_increases (k : nat) :
  Nat.iter k Communicator.increase_seq 1 = 1 + Z.of_nat k mod 65535
  /\ 1 <= Nat.iter k Communicator.increase_seq 1 <= 65535
  /\ Nat.iter (k + Z.to_nat 65535) Communicator.increase_seq 1
     = Nat.iter k Communicator.increase_seq 1.
Proof.
  rewrite !iterated_increase_seq.
  pose proof (Z.mod_pos_bound (Z.of_nat k) 65535 eq_refl) as Hb.
  split; [reflexivity | split; [lia |]]. f_equal.
  rewrite Nat2Z.inj_add, Z2Nat.id by lia.
  replace (Z.of_nat k + 65535) with (Z.of_nat k + 1 * 65535) by lia.
  apply Z.mod_add. lia.
Qed.

Lemma requests_from_nth (identifier : Z) (payloads : list bytes) :
  forall (seq : Z) (k : nat),
    nth_error (requests_from identifier seq payloads) k
    = option_map
        (fun payload =>
           (identifier, Nat.iter k Communicator.increase_seq seq, payload))
        (nth_error payloads k).
Proof.
  induction payloads as [| payload payloads IH]; intros seq k.
  - destruct k; reflexivity.
  - destruct k as [| k]; [reflexivity |].
    cbn [requests_from nth_error]. rewrite IH.
    now rewrite <- Nat.iter_succ_r.
Qed.

Lemma requests_from_length (identifier seq : Z) (payloads : list bytes) :
  length (requests_from identifier seq payloads) = length payloads.
Proof.
  revert seq. induction payloads as [| payload payloads IH]; intros seq;
    [reflexivity |]. cbn [requests_from length]. now rewrite IH.
Qed.

(** ** run, turn by turn *)

Lemma same_statistics_refl (T : Type) (s : ResponseList.t T) :
  same_statistics s s.
Proof. repeat split. Qed.

Lemma same_statistics_trans (T : Type) (s t u : ResponseList.t T) :
  same_statistics s t -> same_statistics t u -> same_statistics s u.
Proof.
  intros (H1 & H2 & H3 & H4 & H5) (K1 & K2 & K3 & K4 & K5).
  repeat split; congruence.
Qed.

Section RunFacts.
Context {T : Type} `{Number T}.
Variable unpack : bytes -> option icmp.ICMP.
Variable self : Communicator.t T.
Variables (match_payloads : bool) (start_time : T) (identifier : Z).

Let loop :=
  Communicator.run_loop unpack self match_payloads start_time identifier.
Let result_of := attempt_result unpack self match_payloads identifier.

(** One turn of the loop. *)
Lemma run_loop_turn (seq : Z) (payload : bytes) (payloads : list bytes)
      (a : Communicator.attempt T) (env : list (Communicator.attempt T))
      (responses : ResponseList.t T) (sent : list Communicator.request) :
  loop seq (payload :: payloads) (a :: env) responses sent
  = match result_of payload a with
    | Returned response =>
        let responses' :=
          ResponseList.set_stop_time
            (ResponseList.append responses response) (Communicator.now a) in
        if Communicator.deadline_reached
             self (Communicator.now a - start_time)%py
        then Returned (responses', sent ++ [(identifier, seq, payload)])
        else
          match Communicator.sleep (Communicator.sleep_fault a)
                                   (Communicator.interval self) with
          | Returned _ =>
              loop (Communicator.increase_seq seq) payloads env responses'
                   (sent ++ [(identifier, seq, payload)])
          | Raised e => Raised e
          | Pending => Pending
          end
    | Raised e => Raised e
    | Pending => Pending
    end.
Proof.
  unfold loop, result_of, attempt_result, Communicator.send_ping.
  cbn [Communicator.run_loop]. unfold Communicator.send_ping.
  destruct (Communicator.send_fault a); reflexivity.
Qed.

(** What a run that returns has done: it made some turns, one per payload
    and per entry of the environment, in order; each got its response; the
    responses were appended, the requests logged, and the clock of the last
    turn is the stop time. *)
Lemma run_loop_trace (payloads : list bytes) :
  forall (env : list (Communicator.attempt T)) (seq : Z)
         (responses : ResponseList.t T) (sent : list Communicator.request)
         (responses' : ResponseList.t T) (sent' : list Communicator.request),
    loop seq payloads env responses sent = Returned (responses', sent') ->
    exists new : list (Response.t T),
      same_statistics responses' (fold_left ResponseList.append new responses)
      /\ sent' = sent ++ firstn (length new)
                                (requests_from identifier seq payloads)
      /\ (length new <= length payloads)%nat
      /\ (length new <= length env)%nat
      /\ Forall2 (fun r turn => result_of (fst turn) (snd turn) = Returned r)
                 new (firstn (length new) (combine payloads env))
      /\ ResponseList.start_time responses'
         = ResponseList.start_time responses
      /\ ResponseList.stop_time responses'
         = match new with
           | [] => ResponseList.stop_time responses
           | _ :: _ =>
               option_map Communicator.now
                          (nth_error env (length new - 1))
           end.
Proof.
  induction payloads as [| payload payloads IH];
    intros env seq responses sent responses' sent'.
  - unfold loop. cbn [Communicator.run_loop]. intros E. injection E as <- <-.
    exists []. cbn [length firstn fold_left]. rewrite app_nil_r.
    repeat split; try apply same_statistics_refl; try lia. constructor.
  - destruct env as [| a env];
      [unfold loop; cbn [Communicator.run_loop]; discriminate |].
    rewrite run_loop_turn.
    destruct (result_of payload a) as [response | e |] eqn:Hres;
      [| discriminate | discriminate].
    cbv zeta.
    set (responses1 :=
           ResponseList.set_stop_time
             (ResponseList.append responses response) (Communicator.now a)).
    assert (Hsame1 : same_statistics
                       responses1 (ResponseList.append responses response))
      by (subst responses1; repeat split).
    destruct (Communicator.deadline_reached _ _).
    + intros E. injection E as <- <-. exists [response].
      cbn [length firstn fold_left requests_from combine Nat.sub nth_error
             option_map].
      repeat split; try exact (proj1 Hsame1); try apply Hsame1; try lia.
      constructor; [exact Hres | constructor].
    + destruct (Communicator.sleep _ _) as [[] | e0 |];
        [| discriminate | discriminate].
      intros E. destruct (IH _ _ _ _ _ _ E)
        as (new & Hsame & Hsent & Hlp & Hle & Hall & Hstart & Hstop).
      exists (response :: new).
      cbn [length firstn fold_left requests_from combine].
      split; [| split; [| split; [| split; [| split; [| split]]]]].
      * eapply same_statistics_trans; [exact Hsame |].
        apply fold_append_same_statistics, Hsame1.
      * rewrite Hsent, <- app_assoc. reflexivity.
      * lia.
      * lia.
      * constructor; [exact Hres | exact Hall].
      * rewrite Hstart. reflexivity.
      * rewrite Hstop. destruct new as [| r new]; [reflexivity |].
        cbn [length Nat.sub nth_error]. now rewrite Nat.sub_0_r.
Qed.

(** When every turn gets its response and is let to sleep, and there is no
    overall timeout, the loop makes a turn for every payload. *)
Lemma run_loop_completes (payloads : list bytes) :
  forall (env : list (Communicator.attempt T)) (seq : Z)
         (responses : ResponseList.t T) (sent : list Communicator.request),
    Communicator.overall_timeout self = None ->
    (length payloads <= length env)%nat ->
    forallb (fun turn =>
               completes unpack self match_payloads identifier turn
               && rests self (snd turn))
            (combine payloads env) = true ->
    exists responses' sent',
      loop seq payloads env responses sent = Returned (responses', sent')
      /\ length (ResponseList._responses responses')
         = (length (ResponseList._responses responses) + length payloads)%nat
      /\ length sent' = (length sent + length payloads)%nat.
Proof.
  induction payloads as [| payload payloads IH];
    intros env seq responses sent Hnone Hlen Hall.
  - exists responses, sent. unfold loop. cbn [Communicator.run_loop length].
    repeat split; lia.
  - destruct env as [| a env]; [cbn [length] in Hlen; lia |].
    cbn [combine forallb] in Hall. apply andb_true_iff in Hall as [Ha Hrest].
    apply andb_true_iff in Ha as [Ha Hsleep].
    unfold completes in Ha. unfold rests in Hsleep. cbn [fst snd] in Ha, Hsleep.
    rewrite run_loop_turn. fold result_of in Ha.
    destruct (result_of payload a) as [response | |];
      [| discriminate | discriminate].
    cbv zeta. unfold Communicator.deadline_reached. rewrite Hnone.
    destruct (Communicator.sleep _ _) as [[] | |];
      [| discriminate | discriminate].
    cbn [length] in Hlen.
    destruct (IH env (Communicator.increase_seq seq)
                 (ResponseList.set_stop_time
                    (ResponseList.append responses response)
                    (Communicator.now a))
                 (sent ++ [(identifier, seq, payload)])
                 Hnone ltac:(lia) Hrest)
      as (responses' & sent' & Hrun & Hr & Hs).
    exists responses', sent'. split; [exact Hrun |].
    cbn [ResponseList.set_stop_time ResponseList._responses] in Hr.
    rewrite append_length in Hr. rewrite length_app in Hs.
    cbn [length] in *. lia.
Qed.

End RunFacts.

Lemma attempt_result_answers (T : Type) (N : Number T)
      (unpack : bytes -> option icmp.ICMP) (self : Communicator.t T)
      (match_payloads : bool) (identifier : Z) (payload : bytes)
      (a : Communicator.attempt T) (r : Response.t T) :
  attempt_result unpack self match_payloads identifier payload a = Returned r ->
  answers identifier (Communicator.timeout self) match_payloads r payload.
Proof.
  unfold attempt_result, Communicator.send_ping, Communicator.listen_for.
  destruct (Communicator.send_fault a); [discriminate |].
  destruct (Communicator.listen_loop _ _ _ _ _ _) as [out rest] eqn:E.
  cbn [fst]. intros ->.
  destruct (listen_loop_sound _ _ _ _ _ _ _ _ E)
    as [_ [-> | (raw & src & tl & resp & _ & _ & _ & Hm & ->)]].
  - reflexivity.
  - apply reply_matches_iff in Hm as (Hid & Hty & Hpay).
    unfold answers. cbn [Response.message target packet].
    repeat split; try assumption.
    intros ->. exact Hpay.
Qed.

Lemma nth_error_firstn_some (A : Type) (l : list A) :
  forall (n k : nat) (x : A),
    nth_error (firstn n l) k = Some x -> nth_error l k = Some x.
Proof.
  induction l as [| y l IH]; intros n k x.
  - rewrite firstn_nil. destruct k; discriminate.
  - destruct n as [| n]; [destruct k; discriminate |].
    destruct k as [| k]; [easy |]. cbn [firstn nth_error]. apply IH.
Qed.

Lemma Forall2_over_payloads (A B C : Type) (R : A -> B * C -> Prop)
      (Q : A -> B -> Prop) :
  (forall r turn, R r turn -> Q r (fst turn)) ->
  forall (new : list A) (ps : list B) (env : list C),
    Forall2 R new (firstn (length new) (combine ps env)) ->
    Forall2 Q new (firstn (length new) ps).
Proof.
  intros HRQ. induction new as [| r new IH]; intros ps env Hall.
  - constructor.
  - destruct ps as [| p ps]; [inversion Hall |].
    destruct env as [| a env]; [inversion Hall |].
    cbn [length firstn combine] in *.
    inversion Hall as [| r' turn l1 l2 Hr Hrest]; subst.
    constructor; [exact (HRQ _ _ Hr) | eapply IH; exact Hrest].
Qed.

Section RunProperties.
Context {T : Type} `{Number T}.
Variable unpack : bytes -> option icmp.ICMP.
Variable self : Communicator.t T.
Variables (match_payloads : bool) (start_time : T).
Variable env : list (Communicator.attempt T).
Variables (result : ResponseList.t T) (sent : list Communicator.request).
Hypothesis returned :
  Communicator.run unpack self match_payloads start_time env
  = Returned (result, sent).

(** The turns of a run that returned. *)
Lemma run_trace :
  exists new : list (Response.t T),
    ResponseList._responses result = new
    /\ same_statistics
         result
         (fold_left ResponseList.append new
                    (ResponseList.clear (Communicator.responses self)))
    /\ sent = firstn (length new)
                     (requests_from (Communicator.seed_id self) 1
                                    (Communicator.provider self))
    /\ (length new <= length (Communicator.provider self))%nat
    /\ (length new <= length env)%nat
    /\ Forall2 (answers (Communicator.seed_id self)
                        (Communicator.timeout self) match_payloads)
               new (firstn (length new) (Communicator.provider self))
    /\ ResponseList.start_time result = Some start_time
    /\ ResponseList.stop_time result
       = match new with
         | [] => ResponseList.stop_time (Communicator.responses self)
         | _ :: _ =>
             option_map Communicator.now (nth_error env (length new - 1))
         end.
Proof.
  unfold Communicator.run in returned.
  destruct (run_loop_trace unpack self match_payloads start_time _ _ _ _ _ _
                           _ _ returned)
    as (new & Hsame & Hsent & Hlp & Hle & Hall & Hstart & Hstop).
  set (cleared := ResponseList.clear (Communicator.responses self)) in *.
  set (base := ResponseList.set_start_time cleared start_time) in *.
  assert (Hbase : same_statistics base cleared) by (repeat split).
  assert (Hsame' : same_statistics
                     result (fold_left ResponseList.append new cleared))
    by (eapply same_statistics_trans;
        [exact Hsame | apply fold_append_same_statistics, Hbase]).
  exists new. split; [| split; [exact Hsame' | split; [exact Hsent |]]].
  - rewrite (proj1 Hsame'), fold_append_responses. reflexivity.
  - split; [exact Hlp | split; [exact Hle | split; [| split]]].
    + eapply Forall2_over_payloads; [| exact Hall].
      intros r turn. apply attempt_result_answers.
    + exact Hstart.
    + exact Hstop.
Qed.

End RunProperties.

(** X13. The requests of a run that returned are one per response, no more
    than there are payloads, and they follow the provider: the request
    number k (from 0) carries the communicator's identifier, the sequence
    number 1 + (k mod 65535) and the payload number k. *)
Theorem run_sends_requests_in_order
        (T : Type) (N : Number T) (unpack : bytes -> option icmp.ICMP)
        (self : Communicator.t T) (match_payloads : bool) (start_time : T)
        (env : list (Communicator.attempt T))
        (result : ResponseList.t T) (sent : list Communicator.request) :
  Communicator.run unpack self match_payloads start_time env
  = Returned (result, sent) ->
  length sent = length (ResponseList._responses result)
  /\ (length sent <= length (Communicator.provider self))%nat
  /\ forall k request,
      nth_error sent k = Some request ->
      exists payload,
        nth_error (Communicator.provider self) k = Some payload
        /\ request = (Communicator.seed_id self,
                      1 + Z.of_nat k mod 65535, payload).
Proof.
  intros Hrun.
  destruct (run_trace unpack self match_payloads start_time env result sent
                      Hrun)
    as (new & Hnew & _ & Hsent & Hlp & _).
  assert (Hlen : length sent = length new).
  { rewrite Hsent, length_firstn, requests_from_length. lia. }
  split; [now rewrite Hnew | split; [lia |]].
  intros k request Hk. rewrite Hsent in Hk.
  apply nth_error_firstn_some in Hk. rewrite requests_from_nth in Hk.
  destruct (nth_error (Communicator.provider self) k) as [payload |];
    [| discriminate].
  exists payload. split; [reflexivity |].
  cbn [option_map] in Hk. injection Hk as <-.
  now rewrite iterated_increase_seq.
Qed.

Lemma run_sends_requests_in_order_witness :
  match Communicator.run decode (@ten_pings Q Q_Number) false 0%Q
                         prompt_replies with
  | Returned (result, sent) =>
      length sent = length (ResponseList._responses result)
      /\ (length sent <= 10)%nat
  | _ => False
  end.
Proof.
  destruct (Communicator.run decode (@ten_pings Q Q_Number) false 0%Q
                             prompt_replies)
    as [[result sent] | e |] eqn:E; [| vm_compute in E; discriminate
                                     | vm_compute in E; discriminate].
  destruct (run_sends_requests_in_order
              Q Q_Number decode ten_pings false 0%Q prompt_replies
              result sent E) as (Hlen & Hle & _).
  split; [exact Hlen | exact Hle].
Defined.

(** X14. Every response of a run that returned answers the request of its
    turn: it is either a timeout whose elapsed time is the communicator's
    timeout, or a message with the empty target, the communicator's
    identifier, a type other than Echo Request and, when payloads are
    matched, the payload of that turn. *)
Theorem run_responses_answer_their_requests
        (T : Type) (N : Number T) (unpack : bytes -> option icmp.ICMP)
        (self : Communicator.t T) (match_payloads : bool) (start_time : T)
        (env : list (Communicator.attempt T))
        (result : ResponseList.t T) (sent : list Communicator.request) :
  Communicator.run unpack self match_payloads start_time env
  = Returned (result, sent) ->
  Forall2 (answers (Communicator.seed_id self) (Communicator.timeout self)
                   match_payloads)
          (ResponseList._responses result)
          (firstn (length (ResponseList._responses result))
                  (Communicator.provider self)).
Proof.
  intros Hrun.
  destruct (run_trace unpack self match_payloads start_time env result sent
                      Hrun)
    as (new & Hnew & _ & _ & _ & _ & Hall & _).
  now rewrite Hnew.
Qed.

Lemma run_responses_answer_their_requests_witness :
  match Communicator.run decode (@ten_pings Q Q_Number) true 0%Q
                         prompt_replies with
  | Returned (result, sent) =>
      Forall2 (answers 7 2%Q true)
              (ResponseList._responses result)
              (firstn (length (ResponseList._responses result))
                      (repeat [x61] 10))
  | _ => False
  end.
Proof.
  destruct (Communicator.run decode (@ten_pings Q Q_Number) true 0%Q
                             prompt_replies)
    as [[result sent] | e |] eqn:E; [| vm_compute in E; discriminate
                                     | vm_compute in E; discriminate].
  exact (run_responses_answer_their_requests
           Q Q_Number decode ten_pings true 0%Q prompt_replies
           result sent E).
Defined.

(** X15. Without an overall timeout, when the environment lets every turn
    get its response (a reply or a timeout) and the sleep that follows every
    turn returns (the interval is not negative, and the platform takes it),
    run returns with one response and one request per payload of the
    provider: an attempt that times out does not end the session.  With an
    interval that is negative, run raises ValueError at the sleep that
    follows the first turn, once that turn has got its response. *)
Theorem run_without_deadline_makes_every_attempt
        (T : Type) (N : Number T) (unpack : bytes -> option icmp.ICMP)
        (self : Communicator.t T) (match_payloads : bool) (start_time : T)
        (env : list (Communicator.attempt T)) :
  Communicator.overall_timeout self = None ->
  (length (Communicator.provider self) <= length env)%nat ->
  (forallb (fun turn =>
              completes unpack self match_payloads (Communicator.seed_id self)
                        turn
              && rests self (snd turn))
           (combine (Communicator.provider self) env) = true ->
   exists result sent,
     Communicator.run unpack self match_payloads start_time env
     = Returned (result, sent)
     /\ length (ResponseList._responses result)
        = length (Communicator.provider self)
     /\ length sent = length (Communicator.provider self))
  /\ (forall payload payloads a env',
         Communicator.provider self = payload :: payloads ->
         env = a :: env' ->
         completes unpack self match_payloads (Communicator.seed_id self)
                   (payload, a) = true ->
         Communicator.sleep_fault a = false ->
         num_le (of_int 0) (Communicator.interval self) = false ->
         Communicator.run unpack self match_payloads start_time env
         = Raised ValueError).
Proof.
  intros Hnone Hlen. split.
  - intros Hall. unfold Communicator.run.
    destruct (run_loop_completes
                unpack self match_payloads start_time
                (Communicator.seed_id self) (Communicator.provider self)
                env 1
                (ResponseList.set_start_time
                   (ResponseList.clear (Communicator.responses self))
                   start_time)
                [] Hnone Hlen Hall)
      as (result & sent & Hrun & Hr & Hs).
    exists result, sent. split; [exact Hrun |].
    cbn [ResponseList.set_start_time ResponseList.clear
           ResponseList._responses length] in Hr.
    cbn [length] in Hs. split; lia.
  - intros payload payloads a env' Hprovider -> Hturn Hplatform Hnegative.
    unfold Communicator.run. rewrite Hprovider, run_loop_turn.
    unfold completes in Hturn. cbn [fst snd] in Hturn.
    destruct (attempt_result _ _ _ _ _ _) as [response | |];
      [| discriminate | discriminate].
    cbv zeta. unfold Communicator.deadline_reached, Communicator.sleep.
    now rewrite Hnone, Hplatform, Hnegative.
Qed.

Lemma run_without_deadline_makes_every_attempt_witness :
  Communicator.overall_timeout three_pings = None
  /\ (length (Communicator.provider three_pings) <= length one_loss)%nat
  /\ forallb (fun turn =>
                completes decode three_pings false 7 turn
                && rests three_pings (snd turn))
             (combine (Communicator.provider three_pings) one_loss) = true
  /\ (exists result sent,
         Communicator.run decode three_pings false 0%Q one_loss
         = Returned (result, sent)
         /\ length (ResponseList._responses result) = 3%nat
         /\ length sent = 3%nat)
  /\ Communicator.overall_timeout hasty_ping = None
  /\ num_le (of_int 0) (Communicator.interval hasty_ping) = false
  /\ Communicator.run decode hasty_ping false 0%Q [prompt_reply (1 # 8)%Q]
     = Raised ValueError.
Proof.
  split; [reflexivity | split; [cbn; lia | split; [reflexivity |]]].
  split; [| split; [reflexivity | split; [reflexivity |]]].
  - apply (run_without_deadline_makes_every_attempt
             Q Q_Number decode three_pings false 0%Q one_loss);
      [reflexivity | cbn; lia | reflexivity].
  - apply (run_without_deadline_makes_every_attempt
             Q Q_Number decode hasty_ping false 0%Q
             [@prompt_reply Q Q_Number (1 # 8)%Q]
             eq_refl (le_n 1))
      with (payload := [x61]) (payloads := @nil bytes)
           (a := @prompt_reply Q Q_Number (1 # 8)%Q)
           (env' := @nil (Communicator.attempt Q));
      reflexivity.
Defined.

(** X16. After a run that returned, start_time is the clock read on entry;
    if a request was sent, stop_time is the clock read after the last
    response and runtime is their difference; if none was sent (the
    provider is empty), stop_time is never assigned, and on a communicator
    fresh from __init__ reading runtime raises AttributeError. *)
Theorem runtime_after_run
        (T : Type) (N : Number T) (unpack : bytes -> option icmp.ICMP)
        (self : Communicator.t T) (match_payloads : bool) (start_time : T)
        (env : list (Communicator.attempt T))
        (result : ResponseList.t T) (sent : list Communicator.request) :
  Communicator.run unpack self match_payloads start_time env
  = Returned (result, sent) ->
  ResponseList.start_time result = Some start_time
  /\ (sent <> [] ->
      exists a,
        nth_error env (length sent - 1) = Some a
        /\ ResponseList.stop_time result = Some (Communicator.now a)
        /\ runtime result
           = Some (num_sub (Communicator.now a) start_time))
  /\ (sent = [] ->
      ResponseList.stop_time result
      = ResponseList.stop_time (Communicator.responses self))
  /\ (Communicator.provider self = [] ->
      ResponseList.stop_time (Communicator.responses self) = None ->
      sent = [] /\ runtime result = None).
Proof.
  intros Hrun.
  destruct (run_trace unpack self match_payloads start_time env result sent
                      Hrun)
    as (new & Hnew & _ & Hsent & Hlp & Hle & _ & Hstart & Hstop).
  assert (Hlen : length sent = length new).
  { rewrite Hsent, length_firstn, requests_from_length. lia. }
  split; [exact Hstart | split; [| split]].
  - intros Hne. destruct new as [| r new];
      [destruct sent; [congruence | discriminate] |].
    rewrite Hlen.
    destruct (nth_error env (length (r :: new) - 1)) as [a |] eqn:Ha.
    + exists a. cbn [option_map] in Hstop.
      split; [reflexivity | split; [exact Hstop |]].
      unfold runtime. now rewrite Hstop, Hstart.
    + apply nth_error_None in Ha. cbn [length] in *. lia.
  - intros ->. destruct new; [exact Hstop | discriminate].
  - intros Hempty Hnostop. rewrite Hempty in Hlp.
    destruct new; [| cbn [length] in Hlp; lia].
    split; [destruct sent; [reflexivity | discriminate] |].
    unfold runtime. now rewrite Hstop, Hnostop.
Qed.

Lemma runtime_after_run_witness :
  match Communicator.run decode three_pings false 0%Q one_loss with
  | Returned (result, sent) =>
      ResponseList.start_time result = Some 0%Q
      /\ runtime result = Some ((34 # 8) - 0)%Q
  | _ => False
  end.
Proof.
  destruct (Communicator.run decode three_pings false 0%Q one_loss)
    as [[result sent] | e |] eqn:E; [| vm_compute in E; discriminate
                                     | vm_compute in E; discriminate].
  destruct (runtime_after_run Q Q_Number decode three_pings false 0%Q
                              one_loss result sent E)
    as (Hstart & Hlast & _).
  split; [exact Hstart |].
  assert (Hsent : sent <> [])
    by (intros ->; vm_compute in E; discriminate).
  destruct (Hlast Hsent) as (a & Ha & _ & Hruntime).
  assert (Hlen : length sent = 3%nat)
    by (vm_compute in E; injection E as _ <-; reflexivity).
  rewrite Hlen in Ha. vm_compute in Ha. injection Ha as <-. exact Hruntime.
Defined.

Lemma times_from_empty (T : Type) (N : Number T) (self : ResponseList.t T)
      (l : list (Response.t T)) :
  ResponseList._responses self = [] ->
  l <> [] ->
  same_times (fold_left ResponseList.append l self) (ResponseList.init l).
Proof.
  intros Hself Hl. destruct l as [| value l]; [congruence |].
  unfold ResponseList.init. cbn [fold_left].
  apply fold_append_same_times. unfold same_times.
  cbn [ResponseList.append ResponseList._responses ResponseList.rtt_avg
         ResponseList.rtt_min ResponseList.rtt_max].
  rewrite Hself. repeat split.
Qed.

(** X17. The statistics of the series a run returns are those of its own
    list of responses: on a communicator fresh from __init__ the round-trip
    times and the loss fraction are those of ResponseList(responses); on a
    communicator that ran before, the round-trip times still are, as soon as
    there is a response. *)
Theorem run_statistics_are_those_of_its_responses
        (T : Type) (N : Number T) (unpack : bytes -> option icmp.ICMP)
        (self : Communicator.t T) (match_payloads : bool) (start_time : T)
        (env : list (Communicator.attempt T))
        (result : ResponseList.t T) (sent : list Communicator.request) :
  Communicator.run unpack self match_payloads start_time env
  = Returned (result, sent) ->
  (Communicator.responses self = ResponseList.init [] ->
   same_statistics result
                   (ResponseList.init (ResponseList._responses result)))
  /\ (ResponseList._responses result <> [] ->
      same_times result
                 (ResponseList.init (ResponseList._responses result))).
Proof.
  intros Hrun.
  destruct (run_trace unpack self match_payloads start_time env result sent
                      Hrun)
    as (new & Hnew & Hsame & _).
  rewrite Hnew. split.
  - intros Hfresh. eapply same_statistics_trans; [exact Hsame |].
    apply fold_append_same_statistics. rewrite Hfresh. repeat split.
  - intros Hne.
    destruct Hsame as (Hr & Ha & Hmin & Hmax & _).
    destruct (times_from_empty
                T N (ResponseList.clear (Communicator.responses self)) new
                eq_refl Hne)
      as (Kr & Ka & Kmin & Kmax).
    repeat split; congruence.
Qed.

Lemma run_statistics_are_those_of_its_responses_witness :
  match Communicator.run decode three_pings false 0%Q one_loss with
  | Returned (result, sent) =>
      same_statistics result
                      (ResponseList.init (ResponseList._responses result))
  | _ => False
  end.
Proof.
  destruct (Communicator.run decode three_pings false 0%Q one_loss)
    as [[result sent] | e |] eqn:E; [| vm_compute in E; discriminate
                                     | vm_compute in E; discriminate].
  destruct (run_statistics_are_those_of_its_responses
              Q Q_Number decode three_pings false 0%Q one_loss result sent E)
    as [Hfresh _].
  apply Hfresh. reflexivity.
Defined.

(** ** ping *)

(** X18. When ping returns a series, there is an identifier of 1..65535,
    absent from SEED_IDs on entry, such that every response of the series
    answers a request of that identifier (a timeout with the timeout as
    elapsed time, or a message with that identifier, not an Echo Request,
    and with the payload sent if matching is on); there is at most one
    response per payload; the statistics are those of the list of responses;
    and SEED_IDs is left as it was. *)
Theorem ping_reports_replies_to_its_identifier
        (T : Type) (N : Number T) (unpack : bytes -> option icmp.ICMP)
        (SEED_IDs : list Z) (provider : list bytes) (timeout : T)
        (match_ : bool) (overall_timeout : option T) (env : environment T)
        (responses : ResponseList.t T) (ids : list Z) :
  ping unpack SEED_IDs provider timeout match_ overall_timeout env
  = (Returned responses, ids) ->
  exists seed_id,
    1 <= seed_id <= 65535
    /\ contains SEED_IDs seed_id = false
    /\ Forall2 (answers seed_id timeout match_)
               (ResponseList._responses responses)
               (firstn (length (ResponseList._responses responses)) provider)
    /\ (length (ResponseList._responses responses) <= length provider)%nat
    /\ same_statistics
         responses (ResponseList.init (ResponseList._responses responses))
    /\ ids = SEED_IDs.
Proof.
  unfold ping.
  destruct (allocate SEED_IDs (entropy env)) as [[seed_id ids1] |] eqn:Halloc;
    [| discriminate].
  destruct (allocate_some _ _ _ _ Halloc) as (Hrange & Hfree & ->).
  destruct (socket_fault env); [discriminate |].
  destruct (Communicator.run _ _ _ _ _) as [[result sent] | e |] eqn:Hrun;
    [| discriminate | discriminate].
  rewrite (list_remove_last _ _ Hfree). intros E. injection E as <- <-.
  destruct (run_trace _ _ _ _ _ _ _ Hrun)
    as (new & Hnew & Hsame & _ & Hlp & _ & Hall & _).
  cbn [Communicator.seed_id Communicator.timeout Communicator.provider
         Communicator.responses] in *.
  exists seed_id. rewrite Hnew.
  split; [exact Hrange | split; [exact Hfree | split; [exact Hall |]]].
  split; [exact Hlp | split; [| reflexivity]].
  eapply same_statistics_trans; [exact Hsame |].
  apply fold_append_same_statistics. repeat split.
Qed.

Lemma ping_reports_replies_to_its_identifier_witness :
  match ping decode [3; 9] [[x61]] 2%Q true None calm with
  | (Returned responses, ids) =>
      ids = [3; 9]
      /\ exists seed_id,
          1 <= seed_id <= 65535
          /\ Forall2 (answers seed_id 2%Q true)
                     (ResponseList._responses responses)
                     (firstn (length (ResponseList._responses responses))
                             [[x61]])
  | _ => False
  end.
Proof.
  destruct (ping decode [3; 9] [[x61]] 2%Q true None calm)
    as [[responses | e |] ids] eqn:E; [| vm_compute in E; discriminate
                                       | vm_compute in E; discriminate].
  destruct (ping_reports_replies_to_its_identifier
              Q Q_Number decode [3; 9] [[x61]] 2%Q true None calm
              responses ids E)
    as (seed_id & Hrange & _ & Hall & _ & _ & Hids).
  split; [exact Hids |]. exists seed_id. split; [exact Hrange | exact Hall].
Defined.

Lemma allocate_cons (SEED_IDs : list Z) (e : Z) (entropy : list Z) :
  allocate SEED_IDs (e :: entropy)
  = if negb (contains SEED_IDs (randint 1 65535 e))
    then Some (randint 1 65535 e, SEED_IDs ++ [randint 1 65535 e])
    else allocate SEED_IDs entropy.
Proof. reflexivity. Qed.

Lemma allocate_first_free (SEED_IDs : list Z) (entropy : list Z)
      (seed_id : Z) (ids : list Z) :
  allocate SEED_IDs entropy = Some (seed_id, ids)
  <-> exists taken e later,
      entropy = taken ++ e :: later
      /\ (forall x, In x taken ->
                    contains SEED_IDs (randint 1 65535 x) = true)
      /\ randint 1 65535 e = seed_id
      /\ contains SEED_IDs seed_id = false
      /\ ids = SEED_IDs ++ [seed_id].
Proof.
  induction entropy as [| e entropy IH].
  - split; [discriminate |].
    intros (taken & x & later & E & _). destruct taken; discriminate.
  - rewrite allocate_cons.
    destruct (contains SEED_IDs (randint 1 65535 e)) eqn:Hc; cbn [negb].
    + rewrite IH. split.
      * intros (taken & x & later & -> & Htaken & Hrest).
        exists (e :: taken), x, later. split; [reflexivity |].
        split; [| exact Hrest]. intros y [<- | Hy]; [exact Hc | auto].
      * intros (taken & x & later & E & Htaken & Hx & Hfree & Hids).
        destruct taken as [| t taken].
        -- cbn [app] in E. injection E as <- <-. congruence.
        -- cbn [app] in E. injection E as <- ->.
           exists taken, x, later. split; [reflexivity |].
           split; [| auto]. intros y Hy. apply Htaken. now right.
    + split.
      * intros E. assert (Hid : seed_id = randint 1 65535 e) by congruence.
        assert (Hids : ids = SEED_IDs ++ [randint 1 65535 e]) by congruence.
        exists [], e, entropy. rewrite Hid, Hids.
        repeat split; [intros x [] | exact Hc].
      * intros (taken & x & later & E & Htaken & Hx & Hfree & Hids).
        destruct taken as [| t taken].
        -- cbn [app] in E. injection E as <- <-. now rewrite Hx, Hids.
        -- cbn [app] in E. injection E as <- ->.
           rewrite (Htaken e (or_introl eq_refl)) in Hc. discriminate.
Qed.

(** X19. The loop of ping returns exactly the first number drawn that is not
    in SEED_IDs, appended at the end of the list: every draw before it was
    in the list and is drawn again, and the draws after it are not made. *)
Theorem allocate_returns_first_free_draw
        (SEED_IDs : list Z) (entropy : list Z) (seed_id : Z) (ids : list Z) :
  allocate SEED_IDs entropy = Some (seed_id, ids)
  <-> exists taken e later,
      entropy = taken ++ e :: later
      /\ (forall x, In x taken ->
                    contains SEED_IDs (randint 1 65535 x) = true)
      /\ randint 1 65535 e = seed_id
      /\ contains SEED_IDs seed_id = false
      /\ ids = SEED_IDs ++ [seed_id].
Proof. exact (allocate_first_free SEED_IDs entropy seed_id ids). Qed.

Lemma all_identifiers_contains (x : Z) :
  1 <= x <= 65535 -> contains all_identifiers x = true.
Proof.
  intros Hx. apply contains_true_iff. unfold all_identifiers.
  apply in_map_iff. exists (Z.to_nat x). split; [lia |].
  apply in_seq. lia.
Qed.

(** X20. When every number of 1..65535 is in SEED_IDs the loop of ping never
    ends: whatever randint draws, and however often, no identifier comes
    out, and ping does not return. *)
Theorem allocate_never_ends_when_all_taken
        (T : Type) (N : Number T) (unpack : bytes -> option icmp.ICMP)
        (SEED_IDs : list Z) :
  (forall x, 1 <= x <= 65535 -> contains SEED_IDs x = true) ->
  (forall entropy, allocate SEED_IDs entropy = None)
  /\ (forall provider timeout match_ overall_timeout (env : environment T),
         ping unpack SEED_IDs provider timeout match_ overall_timeout env
         = (Pending, SEED_IDs)).
Proof.
  intros Hfull.
  assert (Hnone : forall draws, allocate SEED_IDs draws = None).
  { intros draws. induction draws as [| e draws IH]; [reflexivity |].
    rewrite allocate_cons, Hfull by (apply randint_range; lia). exact IH. }
  split; [exact Hnone |].
  intros provider timeout match_ overall_timeout env.
  unfold ping. now rewrite Hnone.
Qed.

Lemma allocate_never_ends_when_all_taken_witness :
  (forall x, 1 <= x <= 65535 -> contains all_identifiers x = true)
  /\ allocate all_identifiers [6; 65534; 0; 12345] = None.
Proof.
  split; [exact all_identifiers_contains |].
  apply (allocate_never_ends_when_all_taken
           Q Q_Number decode all_identifiers all_identifiers_contains).
Defined.

(** ** Communicator.__init__ *)

(** X21. __init__ raises when the socket cannot be created.  Otherwise the
    communicator starts with an empty series; it keeps the seed identifier
    it is given, and without one takes the process identifier modulo 65536,
    a number of 0..65535. *)
Theorem communicator_init_identifier
        (T : Type) (N : Number T) (payload_provider : list bytes)
        (timeout : T) (seed_id : option Z) (getpid : Z) (interval : T)
        (overall_timeout : option T) :
  Communicator_init true payload_provider timeout seed_id getpid interval
                    overall_timeout
  = Raised TransportError
  /\ exists self,
      Communicator_init false payload_provider timeout seed_id getpid
                        interval overall_timeout
      = Returned self
      /\ ResponseList._responses (Communicator.responses self) = []
      /\ (forall given, seed_id = Some given ->
                        Communicator.seed_id self = given)
      /\ (seed_id = None ->
          Communicator.seed_id self = getpid mod 65536
          /\ 0 <= Communicator.seed_id self <= 65535).
Proof.
  split; [reflexivity |]. eexists. split; [reflexivity |].
  cbn [Communicator.responses Communicator.seed_id].
  split; [reflexivity | split].
  - now intros given ->.
  - intros ->.
    assert (E : Z.land getpid 65535 = getpid mod 65536)
      by (change 65535 with (Z.ones 16); now rewrite Z.land_ones by lia).
    rewrite E. pose proof (Z.mod_pos_bound getpid 65536 eq_refl).
    split; [reflexivity | lia].
Qed.

(** ** The turn that ends a run *)

Section LastTurn.
Context {T : Type} `{Number T}.
Variable unpack : bytes -> option icmp.ICMP.
Variable self : Communicator.t T.
Variables (match_payloads : bool) (start_time : T) (identifier : Z).
Variables (payload : bytes) (a : Communicator.attempt T).
Variables (payloads : list bytes) (env : list (Communicator.attempt T)).

(** After turns that all proceed, the loop is at the next turn with as many
    more responses and requests. *)
Lemma run_loop_proceeds (before : list (bytes * Communicator.attempt T)) :
  forall (seq : Z) (responses : ResponseList.t T)
         (sent : list Communicator.request),
    forallb (proceeds unpack self match_payloads start_time identifier)
            before = true ->
    exists seq' responses' sent',
      Communicator.run_loop unpack self match_payloads start_time identifier
                            seq (map fst before ++ payload :: payloads)
                            (map snd before ++ a :: env) responses sent
      = Communicator.run_loop unpack self match_payloads start_time
                              identifier seq' (payload :: payloads)
                              (a :: env) responses' sent'
      /\ length (ResponseList._responses responses')
         = (length (ResponseList._responses responses) + length before)%nat
      /\ length sent' = (length sent + length before)%nat.
Proof.
  induction before as [| [p b] before IH]; intros seq responses sent Hall.
  - exists seq, responses, sent. cbn [map app length]. repeat split; lia.
  - cbn [forallb] in Hall. apply andb_true_iff in Hall as [Hp Hrest].
    unfold proceeds in Hp. cbn [fst snd] in Hp.
    cbn [map app fst snd]. rewrite run_loop_turn.
    destruct (attempt_result unpack self match_payloads identifier p b)
      as [response | |]; [| discriminate | discriminate].
    cbv zeta. apply andb_true_iff in Hp as [Hp Hsleep].
    apply negb_true_iff in Hp. rewrite Hp.
    unfold rests in Hsleep.
    destruct (Communicator.sleep _ _) as [[] | |];
      [| discriminate | discriminate].
    destruct (IH (Communicator.increase_seq seq)
                 (ResponseList.set_stop_time
                    (ResponseList.append responses response)
                    (Communicator.now b))
                 (sent ++ [(identifier, seq, p)]) Hrest)
      as (seq' & responses' & sent' & Hrun & Hr & Hs).
    exists seq', responses', sent'. split; [exact Hrun |].
    cbn [ResponseList.set_stop_time ResponseList._responses] in Hr.
    rewrite append_length in Hr. rewrite length_app in Hs.
    cbn [length] in *. lia.
Qed.

End LastTurn.

(** X22. The first turn that does not proceed decides how run ends.  After
    turns that each got a response without reaching the overall timeout,
    and were followed by a sleep that returned: if
    the next turn raises (the send fails, or listen_for raises), run raises
    the same exception, and the earlier responses are not returned; if it
    gets its response and reaches the overall timeout, run returns with
    exactly one response and one request per turn made, whatever payloads
    remain. *)
Theorem run_ends_at_first_turn_that_does_not_proceed
        (T : Type) (N : Number T) (unpack : bytes -> option icmp.ICMP)
        (self : Communicator.t T) (match_payloads : bool) (start_time : T)
        (before : list (bytes * Communicator.attempt T))
        (payload : bytes) (a : Communicator.attempt T)
        (payloads : list bytes) (env : list (Communicator.attempt T)) :
  Communicator.provider self = map fst before ++ payload :: payloads ->
  forallb (proceeds unpack self match_payloads start_time
                    (Communicator.seed_id self)) before = true ->
  let run :=
    Communicator.run unpack self match_payloads start_time
                     (map snd before ++ a :: env) in
  let last :=
    attempt_result unpack self match_payloads (Communicator.seed_id self)
                   payload a in
  (forall e, last = Raised e -> run = Raised e)
  /\ (forall response,
         last = Returned response ->
         Communicator.deadline_reached
           self (num_sub (Communicator.now a) start_time) = true ->
         exists result sent,
           run = Returned (result, sent)
           /\ length (ResponseList._responses result) = S (length before)
           /\ length sent = S (length before)
           /\ ResponseList.stop_time result = Some (Communicator.now a)).
Proof.
  intros Hprovider Hall run last. subst run. unfold Communicator.run.
  rewrite Hprovider.
  destruct (run_loop_proceeds
              unpack self match_payloads start_time
              (Communicator.seed_id self) payload a payloads env before 1
              (ResponseList.set_start_time
                 (ResponseList.clear (Communicator.responses self))
                 start_time)
              [] Hall)
    as (seq' & responses' & sent' & -> & Hr & Hs).
  rewrite run_loop_turn. fold last.
  cbn [ResponseList.set_start_time ResponseList.clear
         ResponseList._responses length] in Hr.
  cbn [length] in Hs.
  split.
  - now intros e ->.
  - intros response -> Hstop. cbv zeta. rewrite Hstop.
    eexists. eexists. split; [reflexivity |].
    cbn [ResponseList.set_stop_time ResponseList._responses
           ResponseList.stop_time].
    rewrite append_length, length_app. cbn [length].
    repeat split; lia.
Qed.

Lemma run_ends_at_first_turn_that_does_not_proceed_witness :
  let before := combine [[x61]; [x61]]
                        [prompt_reply (1 # 8)%Q; prompt_reply (10 # 8)%Q] in
  Communicator.provider (@ten_pings Q Q_Number)
  = map fst before ++ [x61] :: repeat [x61] 7
  /\ forallb (proceeds decode ten_pings false 0%Q 7) before = true
  /\ exists result sent,
      Communicator.run decode ten_pings false 0%Q
                       (map snd before ++ prompt_reply (19 # 8)%Q :: [])
      = Returned (result, sent)
      /\ length (ResponseList._responses result) = 3%nat.
Proof.
  cbv zeta. split; [reflexivity | split; [reflexivity |]].
  destruct (run_ends_at_first_turn_that_does_not_proceed
              Q Q_Number decode (@ten_pings Q Q_Number) false 0%Q
              (combine [[x61]; [x61]]
                       [prompt_reply (1 # 8)%Q; prompt_reply (10 # 8)%Q])
              [x61] (@prompt_reply Q Q_Number (19 # 8)%Q)
              (repeat [x61] 7) [] eq_refl eq_refl)
    as [_ Hstop].
  destruct (Hstop _ eq_refl eq_refl) as (result & sent & Hrun & Hlen & _).
  exists result, sent. split; [exact Hrun | exact Hlen].
Defined.
